(** * GrinderClone: the messaging, likes and presence core

    A shallow embedding of [server/storage.ts] (class [DatabaseStorage]),
    of the handlers of [server/routes.ts] that call it, and of the tables
    of [shared/schema.ts], followed by the properties of the specification
    that concern them.

    Tables are lists of rows, in the order in which a scan of the table
    yields them: an order SQL leaves to the engine, and which only an
    ORDER BY key constrains in a result.  An insert puts its row last.
    Timestamps are integers (microseconds); the clock value
    that [now()] / [new Date()] yields is an explicit argument [now] of
    every operation that reads it. *)

From Stdlib Require Import List String ZArith Bool Lia Permutation Sorted.
Import ListNotations.

Local Open Scope string_scope.
Local Open Scope list_scope.
Local Open Scope Z_scope.

(** ** shared/schema.ts : rows *)

Module Schema.

(** [users] : [id] is the primary key. *)
Record User := mkUser {
  user_id : string;
  user_email : option string;
  user_firstName : option string;
  user_lastName : option string;
  user_profileImageUrl : option string;
}.

(** [profiles] : the presence columns and the keys; the descriptive
    columns (bio, location, height, ...) play no part in what follows. *)
Record Profile := mkProfile {
  profile_id : Z;
  profile_userId : string;
  profile_displayName : string;
  profile_age : Z;
  profile_isOnline : option bool;
  profile_lastSeen : option Z;
  profile_isVisible : option bool;
  profile_updatedAt : option Z;
}.

(** [messages] : [isRead] is a nullable boolean with default [false];
    [createdAt] is filled by [defaultNow()] on every insert. *)
Record Message := mkMessage {
  message_id : Z;
  senderId : string;
  receiverId : string;
  content : string;
  isRead : option bool;
  message_createdAt : Z;
}.

(** [likes] : a serial primary key and the two user references; the
    table declares no uniqueness over [(likerId, likedId)]. *)
Record Like := mkLike {
  like_id : Z;
  likerId : string;
  likedId : string;
  like_createdAt : Z;
}.

Record Block := mkBlock {
  block_id : Z;
  blockerId : string;
  blockedId : string;
  block_createdAt : Z;
}.

(** [InsertMessage], [InsertLike], [InsertBlock] : what the insert
    schemas let through ([id] and [createdAt] omitted).  For [isRead],
    [None] is an absent key (the column default applies) and
    [Some None] an explicit [null]. *)
Record InsertMessage := mkInsertMessage {
  im_senderId : string;
  im_receiverId : string;
  im_content : string;
  im_isRead : option (option bool);
}.

Record InsertLike := mkInsertLike {
  il_likerId : string;
  il_likedId : string;
}.


(** [MessageWithUsers = Message & { sender; receiver }].  The joined
    user is [None] where the left join found no row. *)
Record MessageWithUsers := mkMessageWithUsers {
  mwu_message : Message;
  sender : option User;
  receiver : option User;
}.

End Schema.
Import Schema.

(** ** The database *)

Record Db := mkDb {
  users : list User;
  profiles : list Profile;
  messages : list Message;
  likes : list Like;
  blocks : list Block;
  (** last value drawn from each serial sequence *)
  messages_id_seq : Z;
  likes_id_seq : Z;
  blocks_id_seq : Z;
}.

Definition set_profiles (ps : list Profile) (d : Db) : Db :=
  mkDb (users d) ps (messages d) (likes d) (blocks d)
       (messages_id_seq d) (likes_id_seq d) (blocks_id_seq d).

Definition set_messages (ms : list Message) (seq : Z) (d : Db) : Db :=
  mkDb (users d) (profiles d) ms (likes d) (blocks d)
       seq (likes_id_seq d) (blocks_id_seq d).

Definition set_likes (ls : list Like) (seq : Z) (d : Db) : Db :=
  mkDb (users d) (profiles d) (messages d) ls (blocks d)
       (messages_id_seq d) seq (blocks_id_seq d).

Definition set_blocks (bs : list Block) (seq : Z) (d : Db) : Db :=
  mkDb (users d) (profiles d) (messages d) (likes d) bs
       (messages_id_seq d) (likes_id_seq d) seq.

(** ** Exceptions and the storage monad

    A storage method either returns or throws; a statement that throws
    leaves the tables as they were (an insert that fails on a reference
    has still drawn its id from the serial sequence). *)

Inductive Exn :=
| ZodError
| ForeignKeyViolation.

Inductive Outcome (A : Type) :=
| Returned (a : A)
| Thrown (e : Exn).
Arguments Returned {A} a.
Arguments Thrown {A} e.

Definition Storage (A : Type) : Type := Db -> Outcome A * Db.

Definition ret {A} (a : A) : Storage A := fun d => (Returned a, d).

Definition bind {A B} (m : Storage A) (k : A -> Storage B) : Storage B :=
  fun d =>
    match m d with
    | (Returned a, d') => k a d'
    | (Thrown e, d') => (Thrown e, d')
    end.

Declare Scope storage_scope.
Delimit Scope storage_scope with storage.
Notation "'await' x <- m ;; k" := (bind m (fun x => k))
  (at level 100, x name, m at next level, right associativity) : storage_scope.
Local Open Scope storage_scope.

(** ** Query building blocks *)

Section Query.
Context {A B : Type}.

(** [a LEFT JOIN b ON on] : every left row with each right row that
    matches, or once with no right row. *)
Definition leftJoin (on : A -> B -> bool) (l : list A) (r : list B)
  : list (A * option B) :=
  flat_map
    (fun a =>
       match filter (on a) r with
       | [] => [(a, None)]
       | bs => map (fun b => (a, Some b)) bs
       end) l.

Variable key : A -> Z.

(** [ORDER BY key ASC] and [ORDER BY key DESC].  The clause names one
    key, and the database promises nothing about rows whose keys are
    equal.  The sort below is one admissible answer (it happens to keep
    such rows in scan order); what is stated about an ordered result is
    its content, its sortedness on the key, and its exact order only
    where the keys are pairwise distinct. *)
Fixpoint insert_asc (x : A) (l : list A) : list A :=
  match l with
  | [] => [x]
  | y :: l' => if key x <=? key y then x :: l else y :: insert_asc x l'
  end.

Fixpoint orderBy_asc (l : list A) : list A :=
  match l with
  | [] => []
  | x :: l' => insert_asc x (orderBy_asc l')
  end.

Fixpoint insert_desc (x : A) (l : list A) : list A :=
  match l with
  | [] => [x]
  | y :: l' => if key y <=? key x then x :: l else y :: insert_desc x l'
  end.

Fixpoint orderBy_desc (l : list A) : list A :=
  match l with
  | [] => []
  | x :: l' => insert_desc x (orderBy_desc l')
  end.

(** The two orders on rows, as relations. *)
Definition asc (x y : A) : Prop := key x <= key y.
Definition desc (x y : A) : Prop := key y <= key x.
End Query.

Definition user_exists (d : Db) (id : string) : bool :=
  existsb (fun u => String.eqb (user_id u) id) (users d).

(** ** server/storage.ts : DatabaseStorage *)

(** [sendMessage] : [insert(messages).values(message).returning()].  The
    row gets the next serial id and [now] as [createdAt] and is scanned
    last; [senderId] and [receiverId] reference [users.id], so the insert
    throws when either is not a stored user: no row is stored then, but
    the id has been drawn and the sequence stays advanced. *)
Definition sendMessage (now : Z) (message : InsertMessage) : Storage Message :=
  fun d =>
    if user_exists d (im_senderId message) && user_exists d (im_receiverId message)
    then
      let newMessage :=
        mkMessage (messages_id_seq d + 1)
                  (im_senderId message) (im_receiverId message)
                  (im_content message)
                  (match im_isRead message with
                   | None => Some false
                   | Some v => v
                   end)
                  now in
      (Returned newMessage,
       set_messages (messages d ++ [newMessage]) (messages_id_seq d + 1) d)
    else (Thrown ForeignKeyViolation,
          set_messages (messages d) (messages_id_seq d + 1) d).

Definition conversation_where (userId1 userId2 : string) (m : Message) : bool :=
  (String.eqb (senderId m) userId1 && String.eqb (receiverId m) userId2)
  || (String.eqb (senderId m) userId2 && String.eqb (receiverId m) userId1).

Definition join_sender (m : Message) (u : User) : bool :=
  String.eqb (user_id u) (senderId m).

Definition row_createdAt (row : Message * option User) : Z :=
  message_createdAt (fst row).

(** [{ ...row.messages, sender: row.users!, receiver: row.users! }] : the
    object both conversation queries build from a joined row. *)
Definition entry_of (row : Message * option User) : MessageWithUsers :=
  mkMessageWithUsers (fst row) (snd row) (snd row).

(** [getConversation] : messages left-joined with [users] on the sender,
    filtered on the pair, ordered by [createdAt] ascending; both [sender]
    and [receiver] are filled from the one joined user. *)
Definition getConversation (userId1 userId2 : string) (d : Db)
  : list MessageWithUsers :=
  let result :=
    orderBy_asc row_createdAt
      (filter (fun row => conversation_where userId1 userId2 (fst row))
              (leftJoin join_sender (messages d) (users d))) in
  map entry_of result.

Definition conversations_where (userId : string) (m : Message) : bool :=
  String.eqb (senderId m) userId || String.eqb (receiverId m) userId.

Definition otherUserId (userId : string) (message : Message) : string :=
  if String.eqb (senderId message) userId
  then receiverId message
  else senderId message.

(** A JS [Map<string, V>] : keys in insertion order. *)
Definition JsMap (V : Type) : Type := list (string * V).

Definition map_has {V} (k : string) (m : JsMap V) : bool :=
  existsb (fun kv => String.eqb (fst kv) k) m.

Definition map_values {V} (m : JsMap V) : list V := map snd m.

(** The [for (const row of latestMessages)] loop of [getConversations]. *)
Fixpoint group_latest (userId : string) (rows : list (Message * option User))
  (conversationMap : JsMap MessageWithUsers) : JsMap MessageWithUsers :=
  match rows with
  | [] => conversationMap
  | row :: rest =>
      let message := fst row in
      let other := otherUserId userId message in
      if map_has other conversationMap
      then group_latest userId rest conversationMap
      else group_latest userId rest (conversationMap ++ [(other, entry_of row)])
  end.

Definition latestMessages (userId : string) (d : Db)
  : list (Message * option User) :=
  orderBy_desc row_createdAt
    (filter (fun row => conversations_where userId (fst row))
            (leftJoin join_sender (messages d) (users d))).

Definition getConversations (userId : string) (d : Db)
  : list MessageWithUsers :=
  map_values (group_latest userId (latestMessages userId d) []).

(** [markMessageAsRead] : one UPDATE guarded by id and receiver; it
    returns nothing and has no failure of its own.  The table is a list
    of rows in scan order; an UPDATE may move the rows it rewrites in
    that order, the [map] below keeps them where they were, so a table
    after an UPDATE is compared with the one before as a collection of
    rows. *)
Definition mark_row (messageId : Z) (userId : string) (m : Message) : Message :=
  if (message_id m =? messageId) && String.eqb (receiverId m) userId
  then mkMessage (message_id m) (senderId m) (receiverId m) (content m)
                 (Some true) (message_createdAt m)
  else m.

Definition markMessageAsRead (messageId : Z) (userId : string) : Storage unit :=
  fun d =>
    (Returned tt,
     set_messages (map (mark_row messageId userId) (messages d))
                  (messages_id_seq d) d).

(** [addLike] : a plain insert, with the same two references to
    [users.id]; no conflict clause. *)
Definition addLike (now : Z) (like : InsertLike) : Storage Like :=
  fun d =>
    if user_exists d (il_likerId like) && user_exists d (il_likedId like)
    then
      let newLike :=
        mkLike (likes_id_seq d + 1) (il_likerId like) (il_likedId like) now in
      (Returned newLike,
       set_likes (likes d ++ [newLike]) (likes_id_seq d + 1) d)
    else (Thrown ForeignKeyViolation,
          set_likes (likes d) (likes_id_seq d + 1) d).

Definition like_is (liker liked : string) (l : Like) : bool :=
  String.eqb (likerId l) liker && String.eqb (likedId l) liked.

(** [removeLike] : DELETE of every row of the ordered pair. *)
Definition removeLike (liker liked : string) : Storage unit :=
  fun d =>
    (Returned tt,
     set_likes (filter (fun l => negb (like_is liker liked l)) (likes d))
               (likes_id_seq d) d).

Definition getLikes (userId : string) (d : Db) : list Like :=
  orderBy_desc like_createdAt
    (filter (fun l => String.eqb (likedId l) userId) (likes d)).

(** [getMutualLikes] : the liked ids of the user's own likes for which
    the EXISTS subquery finds the reverse row. *)
Definition getMutualLikes (userId : string) (d : Db) : list string :=
  map likedId
    (filter
       (fun l =>
          String.eqb (likerId l) userId
          && existsb (fun l2 => like_is (likedId l) (likerId l) l2) (likes d))
       (likes d)).


Definition block_is (blocker blocked : string) (b : Block) : bool :=
  String.eqb (blockerId b) blocker && String.eqb (blockedId b) blocked.

Definition removeBlock (blocker blocked : string) : Storage unit :=
  fun d =>
    (Returned tt,
     set_blocks (filter (fun b => negb (block_is blocker blocked b)) (blocks d))
                (blocks_id_seq d) d).

Definition getBlocks (userId : string) (d : Db) : list Block :=
  filter (fun b => String.eqb (blockerId b) userId) (blocks d).

(** [updateOnlineStatus] : sets the flag and stamps [lastSeen] and
    [updatedAt] on every profile row of the user.  As for every UPDATE,
    the position of the rewritten rows in the scan is not part of what
    the statement promises. *)
Definition status_row (userId : string) (online : bool) (now : Z) (p : Profile)
  : Profile :=
  if String.eqb (profile_userId p) userId
  then mkProfile (profile_id p) (profile_userId p) (profile_displayName p)
                 (profile_age p) (Some online) (Some now)
                 (profile_isVisible p) (Some now)
  else p.

Definition updateOnlineStatus (now : Z) (userId : string) (online : bool)
  : Storage unit :=
  fun d =>
    (Returned tt, set_profiles (map (status_row userId online now) (profiles d)) d).

(** ** Request bodies and the insert schemas

    A request body is a JSON object; only the shape of the values the
    schemas inspect matters. *)

Inductive Json :=
| JNull
| JBool (b : bool)
| JNumber (z : Z)
| JString (s : string)
| JCompound.

Definition JsObject : Type := list (string * Json).

(** [o[k]] : [None] is [undefined]. *)
Fixpoint obj_get (k : string) (o : JsObject) : option Json :=
  match o with
  | [] => None
  | (k', v) :: o' => if String.eqb k' k then Some v else obj_get k o'
  end.

(** [{ ...o, k: v }] *)
Definition obj_set (k : string) (v : Json) (o : JsObject) : JsObject :=
  (k, v) :: o.

(** [z.string()] : any string, the empty one included. *)
Definition z_string (v : option Json) : Outcome string :=
  match v with
  | Some (JString s) => Returned s
  | _ => Thrown ZodError
  end.

(** [z.boolean().nullable().optional()] *)
Definition z_boolean_nullable_optional (v : option Json)
  : Outcome (option (option bool)) :=
  match v with
  | None => Returned None
  | Some JNull => Returned (Some None)
  | Some (JBool b) => Returned (Some (Some b))
  | Some _ => Thrown ZodError
  end.

(** [createInsertSchema(messages).omit({ id, createdAt })] : the three
    [notNull] text columns are required strings, [isRead] is optional. *)
Definition insertMessageSchema_parse (o : JsObject) : Outcome InsertMessage :=
  match z_string (obj_get "senderId" o),
        z_string (obj_get "receiverId" o),
        z_string (obj_get "content" o),
        z_boolean_nullable_optional (obj_get "isRead" o) with
  | Returned s, Returned r, Returned c, Returned i =>
      Returned (mkInsertMessage s r c i)
  | _, _, _, _ => Thrown ZodError
  end.

Definition insertLikeSchema_parse (o : JsObject) : Outcome InsertLike :=
  match z_string (obj_get "likerId" o), z_string (obj_get "likedId" o) with
  | Returned a, Returned b => Returned (mkInsertLike a b)
  | _, _ => Thrown ZodError
  end.


(** ** server/routes.ts *)

(** What a handler sends back: [res.json(body)] or
    [res.status(500).json({ message })]. *)
Inductive Response (A : Type) :=
| Json200 (body : A)
| Json500 (message : string).
Arguments Json200 {A} body.
Arguments Json500 {A} message.

Definition lift {A} (o : Outcome A) : Storage A := fun d => (o, d).

Definition query {A} (f : Db -> A) : Storage A := fun d => (Returned (f d), d).

(** [try { ... res.json(x) } catch (error) { res.status(500).json(...) }] *)
Definition try_catch {A} (failure : string) (m : Storage A)
  : Db -> Response A * Db :=
  fun d =>
    match m d with
    | (Returned a, d') => (Json200 a, d')
    | (Thrown _, d') => (Json500 failure, d')
    end.

Definition includes (l : list string) (x : string) : bool :=
  existsb (String.eqb x) l.

(** The WebSocket server: [wss.clients], each socket with the [userId]
    property the auth frame sets on it. *)
Inductive ReadyState := CONNECTING | OPEN | CLOSING | CLOSED.

Record WebSocket := mkWebSocket {
  ws_id : nat;
  readyState : ReadyState;
  ws_userId : option string;
}.

Definition is_open (c : WebSocket) : bool :=
  match readyState c with OPEN => true | _ => false end.

(** [client.userId === id] *)
Definition client_is (c : WebSocket) (id : string) : bool :=
  match ws_userId c with
  | Some u => String.eqb u id
  | None => false
  end.

(** A [{ type: 'new_message', data }] frame sent to a socket. *)
Record Push := mkPush {
  push_to : nat;
  push_data : Message;
}.

(** [GET /api/conversations] and [GET /api/conversation/:otherUserId] *)
Definition get_conversations (userId : string)
  : Db -> Response (list MessageWithUsers) * Db :=
  try_catch "Failed to fetch conversations" (query (getConversations userId)).

Definition get_conversation (userId otherUser : string)
  : Db -> Response (list MessageWithUsers) * Db :=
  try_catch "Failed to fetch conversation"
            (query (getConversation userId otherUser)).

(** [POST /api/messages] : parse, insert, broadcast, answer. *)
Definition post_messages_body (now : Z) (clients : list WebSocket)
  (userId : string) (body : JsObject) : Storage (Message * list Push) :=
  await messageData <-
    lift (insertMessageSchema_parse (obj_set "senderId" (JString userId) body)) ;;
  await message <- sendMessage now messageData ;;
  let messageWithSender :=
    mkMessage (message_id message) userId (receiverId message)
              (content message) (isRead message) (message_createdAt message) in
  let sent :=
    map (fun client => mkPush (ws_id client) messageWithSender)
        (filter
           (fun client =>
              is_open client
              && (client_is client (im_receiverId messageData)
                  || client_is client userId))
           clients) in
  ret (message, sent).

Definition post_messages (now : Z) (clients : list WebSocket)
  (userId : string) (body : JsObject)
  : Db -> Response Message * list Push * Db :=
  fun d =>
    match post_messages_body now clients userId body d with
    | (Returned (message, sent), d') => (Json200 message, sent, d')
    | (Thrown _, d') => (Json500 "Failed to send message", [], d')
    end.

(** [POST /api/likes] : parse, insert, then the mutual-like check. *)
Definition post_likes_body (now : Z) (userId : string) (body : JsObject)
  : Storage (Like * bool) :=
  await likeData <-
    lift (insertLikeSchema_parse (obj_set "likerId" (JString userId) body)) ;;
  await like <- addLike now likeData ;;
  await mutualLikes <- query (getMutualLikes userId) ;;
  let isMatch := includes mutualLikes (il_likedId likeData) in
  ret (like, isMatch).

Definition post_likes (now : Z) (userId : string) (body : JsObject)
  : Db -> Response (Like * bool) * Db :=
  try_catch "Failed to add like" (post_likes_body now userId body).

(** [DELETE /api/likes/:likedId] : answers [{ success: true }]. *)
Definition delete_likes (userId liked : string) : Db -> Response bool * Db :=
  try_catch "Failed to remove like"
            (await _ <- removeLike userId liked ;; ret true).

Definition get_likes (userId : string) : Db -> Response (list Like) * Db :=
  try_catch "Failed to fetch likes" (query (getLikes userId)).


(** [POST /api/online-status] *)
Definition post_online_status (now : Z) (userId : string) (online : bool)
  : Db -> Response bool * Db :=
  try_catch "Failed to update status"
            (await _ <- updateOnlineStatus now userId online ;; ret true).

(** ** The WebSocket handlers *)

Record Server := mkServer {
  db : Db;
  clients : list WebSocket;
}.

(** What [JSON.parse(message)] makes of a frame: an object whose [type]
    is ['auth'] carrying a [userId], any other value, or a parse error
    (caught and logged). *)
Inductive Frame :=
| AuthFrame (userId : string)
| OtherFrame
| MalformedFrame.

Definition has_id (id : nat) (c : WebSocket) : bool := Nat.eqb (ws_id c) id.

(** [wss.on('connection', ...)] : a new open socket, no [userId] yet. *)
Definition ws_connection (id : nat) (s : Server) : Server :=
  mkServer (db s) (clients s ++ [mkWebSocket id OPEN None]).

(** [ws.on('message', ...)] *)
Definition ws_message (now : Z) (id : nat) (frame : Frame) (s : Server) : Server :=
  match frame with
  | AuthFrame userId =>
      if existsb (has_id id) (clients s)
      then
        mkServer
          (snd (updateOnlineStatus now userId true (db s)))
          (map (fun c => if has_id id c
                         then mkWebSocket (ws_id c) (readyState c) (Some userId)
                         else c)
               (clients s))
      else s
  | OtherFrame | MalformedFrame => s
  end.

(** [if (ws.userId)] : [undefined] and the empty string are falsy. *)
Definition truthy (userId : option string) : bool :=
  match userId with
  | Some u => negb (String.eqb u EmptyString)
  | None => false
  end.

(** [ws.on('close', ...)] ; the socket then leaves [wss.clients]. *)
Definition ws_close (now : Z) (id : nat) (s : Server) : Server :=
  match find (has_id id) (clients s) with
  | None => s
  | Some ws =>
      let d' :=
        match ws_userId ws with
        | Some userId =>
            if truthy (ws_userId ws)
            then snd (updateOnlineStatus now userId false (db s))
            else db s
        | None => db s
        end in
      mkServer d' (filter (fun c => negb (has_id id c)) (clients s))
  end.

(** Persisted presence of a user, as a REST reader sees it. *)
Definition profiles_of (userId : string) (d : Db) : list Profile :=
  filter (fun p => String.eqb (profile_userId p) userId) (profiles d).

Definition persisted_online (userId : string) (d : Db) : bool :=
  existsb (fun p => match profile_isOnline p with
                    | Some true => true
                    | _ => false
                    end)
          (profiles_of userId d).

(** Number of online-to-offline changes of a user along a run. *)
Fixpoint offline_transitions (userId : string) (run : list Db) : nat :=
  match run with
  | d :: ((d' :: _) as rest) =>
      ((if persisted_online userId d && negb (persisted_online userId d')
        then 1 else 0)
       + offline_transitions userId rest)%nat
  | _ => 0%nat
  end.

(** Whether the store holds a like edge / a block edge of an ordered pair. *)
Definition has_like (d : Db) (liker liked : string) : bool :=
  existsb (like_is liker liked) (likes d).

Definition count_likes (d : Db) (liker liked : string) : nat :=
  List.length (filter (like_is liker liked) (likes d)).

Definition has_block (d : Db) (blocker blocked : string) : bool :=
  existsb (block_is blocker blocked) (blocks d).

(** The order the specification names for a conversation: ascending
    [createdAt], equal times by ascending [id]. *)
Definition created_then_id (x y : Message) : Prop :=
  message_createdAt x < message_createdAt y
  \/ (message_createdAt x = message_createdAt y /\ message_id x <= message_id y).

(** An entry whose [sender] and [receiver] are both the user row found
    for the message's [senderId] (or both absent when there is none). *)
Definition joined_on_sender (d : Db) (e : MessageWithUsers) : Prop :=
  receiver e = sender e
  /\ match sender e with
     | Some u => In u (users d) /\ user_id u = senderId (mwu_message e)
     | None => user_exists d (senderId (mwu_message e)) = false
     end.

(** The partner of an entry of [getConversations userId]. *)
Definition partner (userId : string) (e : MessageWithUsers) : string :=
  otherUserId userId (mwu_message e).

(** ** Sample data *)

Module Sample.
Definition alice : User := mkUser "alice" None (Some "Alice") None None.
Definition bob : User := mkUser "bob" None (Some "Bob") None None.
Definition carol : User := mkUser "carol" None None None None.

Definition alice_profile : Profile :=
  mkProfile 1 "alice" "Alice" 30 (Some false) (Some 0) (Some true) (Some 0).

(** Three users, one profile, nothing else yet. *)
Definition db0 : Db :=
  mkDb [alice; bob; carol] [alice_profile] [] [] [] 0 0 0.

Definition like_body (liked : string) : JsObject :=
  [("likedId", JString liked)].

Definition message_body (to text : string) : JsObject :=
  [("receiverId", JString to); ("content", JString text)].

(** alice has blocked bob. *)
Definition db_blocked : Db :=
  set_blocks [mkBlock 1 "alice" "bob" 5] 1 db0.

(** One unread message from alice to bob. *)
Definition hello : Message := mkMessage 1 "alice" "bob" "hello" (Some false) 5.

Definition db_hello : Db := set_messages [hello] 1 db0.

(** A note alice addressed to alice. *)
Definition note : Message := mkMessage 1 "alice" "alice" "note" (Some false) 5.

Definition db_note : Db := set_messages [note] 1 db0.

(** Two messages of one conversation with the same [createdAt], the
    one with the larger id first in the table. *)
Definition second : Message := mkMessage 2 "bob" "alice" "two" (Some false) 5.
Definition first : Message := mkMessage 1 "alice" "bob" "one" (Some false) 5.

Definition db_tie : Db := set_messages [second; first] 2 db0.

(** alice and bob exchange three messages, then carol writes to alice. *)
Definition db_chat : Db :=
  set_messages
    [mkMessage 1 "alice" "bob" "hi" (Some false) 10;
     mkMessage 2 "bob" "alice" "hey" (Some false) 20;
     mkMessage 3 "alice" "bob" "how are you" (Some false) 30;
     mkMessage 4 "carol" "alice" "hello" (Some false) 40]
    4 db0.

(** alice authenticated on two sockets, 1 and 2. *)
Definition two_sockets : Server :=
  ws_message 4 2 (AuthFrame "alice")
    (ws_message 3 1 (AuthFrame "alice")
       (ws_connection 2 (ws_connection 1 (mkServer db0 [])))).
End Sample.

(** ** Vocabulary of the further properties *)

(** The primary key of [messages] and its sequence: stored ids are
    pairwise distinct and none lies beyond the last value drawn. *)
Definition messages_pk (d : Db) : Prop :=
  NoDup (map message_id (messages d))
  /\ Forall (fun m => message_id m <= messages_id_seq d) (messages d).

(** A message without its read flag. *)
Definition unread_view (m : Message) : Z * string * string * string * Z :=
  (message_id m, senderId m, receiverId m, content m, message_createdAt m).

(** The value stored in [isRead] for what the request body carries under
    that key: the column default when the key is absent. *)
Definition stored_isRead (i : option (option bool)) : option bool :=
  match i with
  | None => Some false
  | Some v => v
  end.

(** The sockets a new message between two users is sent to. *)
Definition addressed (sender receiver : string) (c : WebSocket) : bool :=
  is_open c && (client_is c receiver || client_is c sender).

(** ** Photos, profile lookups and discovery (server/storage.ts)

    [photos] is the remaining table these methods touch: it is given with
    its serial sequence beside the database. *)

Record Photo := mkPhoto {
  photo_id : Z;
  photo_profileId : Z;
  photo_url : string;
  photo_isPrimary : option bool;
  photo_order : option Z;
  photo_createdAt : Z;
}.

Record PhotoTable := mkPhotoTable {
  photo_rows : list Photo;
  photos_id_seq : Z;
}.

(** [InsertPhoto] : [isPrimary] and [order] are optional and nullable;
    [None] is an absent key (the column default applies). *)
Record InsertPhoto := mkInsertPhoto {
  ip_profileId : Z;
  ip_url : string;
  ip_isPrimary : option (option bool);
  ip_order : option (option Z);
}.

(** [ProfileWithPhotos = Profile & { photos; user }] *)
Record ProfileWithPhotos := mkProfileWithPhotos {
  pwp_profile : Profile;
  pwp_photos : list Photo;
  pwp_user : option User;
}.

(** [getProfile] : the first profile row of the user, if any. *)
Definition getProfile (userId : string) (d : Db) : option Profile :=
  hd_error (profiles_of userId d).

Definition profile_exists (d : Db) (id : Z) : bool :=
  existsb (fun p => profile_id p =? id) (profiles d).

(** [addPhoto] : a plain insert; [profileId] references [profiles.id]
    (a failed insert keeps the sequence advanced, as for messages). *)
Definition addPhoto (now : Z) (photo : InsertPhoto) (d : Db) (t : PhotoTable)
  : Outcome Photo * PhotoTable :=
  if profile_exists d (ip_profileId photo)
  then
    let newPhoto :=
      mkPhoto (photos_id_seq t + 1) (ip_profileId photo) (ip_url photo)
              (match ip_isPrimary photo with None => Some false | Some v => v end)
              (match ip_order photo with None => Some 0 | Some v => v end)
              now in
    (Returned newPhoto,
     mkPhotoTable (photo_rows t ++ [newPhoto]) (photos_id_seq t + 1))
  else (Thrown ForeignKeyViolation,
        mkPhotoTable (photo_rows t) (photos_id_seq t + 1)).

(** The scalar subquery of [removePhoto] :
    [select id from profiles where userId = ... limit 1]. *)
Definition first_profile_id (userId : string) (d : Db) : option Z :=
  hd_error (map profile_id (profiles_of userId d)).

(** [removePhoto] : DELETE where the id is [photoId] and the profile id
    equals the subquery's value (no row equals a missing value). *)
Definition removePhoto_where (photoId : Z) (sub : option Z) (p : Photo) : bool :=
  (photo_id p =? photoId)
  && match sub with
     | Some pid => photo_profileId p =? pid
     | None => false
     end.

Definition removePhoto (photoId : Z) (userId : string) (d : Db) (t : PhotoTable)
  : PhotoTable :=
  mkPhotoTable
    (filter (fun p => negb (removePhoto_where photoId (first_profile_id userId d) p))
            (photo_rows t))
    (photos_id_seq t).

Definition with_isPrimary (v : bool) (p : Photo) : Photo :=
  mkPhoto (photo_id p) (photo_profileId p) (photo_url p) (Some v)
          (photo_order p) (photo_createdAt p).

(** [setPrimaryPhoto] : throws [Error("Profile not found")] without a
    profile; otherwise two UPDATEs, the first on the photos of the user's
    profile, the second on the photo whose id is [photoId].  The rows
    keep their place in the list, which the UPDATEs do not promise. *)
Inductive JsError := ProfileNotFound.

Definition setPrimaryPhoto (photoId : Z) (userId : string) (d : Db)
  (t : PhotoTable) : JsError + PhotoTable :=
  match getProfile userId d with
  | None => inl ProfileNotFound
  | Some userProfile =>
      let cleared :=
        map (fun p => if photo_profileId p =? profile_id userProfile
                      then with_isPrimary false p else p)
            (photo_rows t) in
      let marked :=
        map (fun p => if photo_id p =? photoId
                      then with_isPrimary true p else p)
            cleared in
      inr (mkPhotoTable marked (photos_id_seq t))
  end.

(** The rows of [profiles LEFT JOIN photos LEFT JOIN users]. *)
Definition JoinedProfile : Type := (Profile * option Photo) * option User.

Definition row_profile (r : JoinedProfile) : Profile := fst (fst r).
Definition row_photo (r : JoinedProfile) : option Photo := snd (fst r).
Definition row_user (r : JoinedProfile) : option User := snd r.

Definition join_photo (p : Profile) (ph : Photo) : bool :=
  photo_profileId ph =? profile_id p.

Definition join_user (r : Profile * option Photo) (u : User) : bool :=
  String.eqb (user_id u) (profile_userId (fst r)).

Definition joined_profiles (t : PhotoTable) (d : Db) : list JoinedProfile :=
  leftJoin join_user (leftJoin join_photo (profiles d) (photo_rows t)) (users d).

(** [(a.order || 0)] : a missing order and order 0 both count as 0. *)
Definition order_key (p : Photo) : Z :=
  match photo_order p with
  | Some z => z
  | None => 0
  end.

(** [.map(r => r.photos).filter(Boolean)] *)
Definition present_photos (rows : list JoinedProfile) : list Photo :=
  flat_map (fun r => match row_photo r with
                     | Some ph => [ph]
                     | None => []
                     end) rows.

(** [getProfileWithPhotos] : the first joined row gives profile and
    user; the photos of all the rows are sorted on [order]. *)
Definition getProfileWithPhotos (userId : string) (t : PhotoTable) (d : Db)
  : option ProfileWithPhotos :=
  let result :=
    filter (fun r => String.eqb (profile_userId (row_profile r)) userId)
           (joined_profiles t d) in
  match result with
  | [] => None
  | r0 :: _ =>
      Some (mkProfileWithPhotos (row_profile r0)
                                (orderBy_asc order_key (present_photos result))
                                (row_user r0))
  end.

(** A sort on a comparison, for an ORDER BY of several keys: a row goes
    before the first row it is not after. *)
Section OrderByLe.
Context {A : Type} (le : A -> A -> bool).

Fixpoint insert_le (x : A) (l : list A) : list A :=
  match l with
  | [] => [x]
  | y :: l' => if le x y then x :: l else y :: insert_le x l'
  end.

Fixpoint orderBy_le (l : list A) : list A :=
  match l with
  | [] => []
  | x :: l' => insert_le x (orderBy_le l')
  end.
End OrderByLe.

(** [CASE WHEN is_online = true THEN 0 ELSE 1 END] *)
Definition online_rank (p : Profile) : Z :=
  match profile_isOnline p with
  | Some true => 0
  | _ => 1
  end.

(** [last_seen DESC] : a missing value sorts first. *)
Definition lastSeen_desc (p q : Profile) : bool :=
  match profile_lastSeen p, profile_lastSeen q with
  | None, _ => true
  | Some _, None => false
  | Some a, Some b => b <=? a
  end.

Definition nearby_le (r1 r2 : JoinedProfile) : bool :=
  let p := row_profile r1 in
  let q := row_profile r2 in
  (online_rank p <? online_rank q)
  || ((online_rank p =? online_rank q) && lastSeen_desc p q).

(** The WHERE clause of [getNearbyProfiles]. *)
Definition nearby_where (userId : string) (ageMin ageMax : Z) (onlineOnly : bool)
  (p : Profile) : bool :=
  negb (String.eqb (profile_userId p) userId)
  && match profile_isVisible p with Some true => true | _ => false end
  && ((ageMin <=? profile_age p) && (profile_age p <=? ageMax))
  && (if onlineOnly
      then match profile_isOnline p with Some true => true | _ => false end
      else true).

(** A JS [Map<number, ProfileWithPhotos>]. *)
Definition ProfileMap : Type := list (Z * ProfileWithPhotos).

Definition pmap_has (k : Z) (m : ProfileMap) : bool :=
  existsb (fun kv => fst kv =? k) m.

(** [profileMap.get(k)!.photos.push(photo)] *)
Definition pmap_push (k : Z) (photo : Photo) (m : ProfileMap) : ProfileMap :=
  map (fun kv =>
         if fst kv =? k
         then (fst kv,
               mkProfileWithPhotos (pwp_profile (snd kv))
                                   (pwp_photos (snd kv) ++ [photo])
                                   (pwp_user (snd kv)))
         else kv) m.

(** The [for (const row of result)] loop of [getNearbyProfiles]. *)
Fixpoint group_profiles (rows : list JoinedProfile) (profileMap : ProfileMap)
  : ProfileMap :=
  match rows with
  | [] => profileMap
  | row :: rest =>
      let profile := row_profile row in
      let m1 :=
        if pmap_has (profile_id profile) profileMap
        then profileMap
        else profileMap
               ++ [(profile_id profile,
                    mkProfileWithPhotos profile [] (row_user row))] in
      let m2 :=
        match row_photo row with
        | Some photo => pmap_push (profile_id profile) photo m1
        | None => m1
        end in
      group_profiles rest m2
  end.

(** [getNearbyProfiles] : [latitude], [longitude] and [maxDistance] are
    accepted and not used; the age bounds default to 18 and 65 and
    [onlineOnly] to false. *)
Definition nearby_rows (userId : string) (ageMin ageMax : Z) (onlineOnly : bool)
  (t : PhotoTable) (d : Db) : list JoinedProfile :=
  orderBy_le nearby_le
    (filter (fun r => nearby_where userId ageMin ageMax onlineOnly (row_profile r))
            (joined_profiles t d)).

Definition getNearbyProfiles (userId : string)
  (ageMin ageMax : option Z) (onlineOnly : option bool)
  (t : PhotoTable) (d : Db) : list ProfileWithPhotos :=
  let ageMin := match ageMin with Some a => a | None => 18 end in
  let ageMax := match ageMax with Some a => a | None => 65 end in
  let onlineOnly := match onlineOnly with Some b => b | None => false end in
  let result := nearby_rows userId ageMin ageMax onlineOnly t d in
  let profilesArray := map snd (group_profiles result []) in
  map (fun profile =>
         mkProfileWithPhotos (pwp_profile profile)
                             (orderBy_asc order_key (pwp_photos profile))
                             (pwp_user profile))
      profilesArray.

(** The order of the discovery list: online profiles first, then the
    most recently seen. *)
Definition nearby_order (p q : Profile) : Prop :=
  online_rank p < online_rank q
  \/ (online_rank p = online_rank q /\ lastSeen_desc p q = true).

Definition row_profile_id (r : JoinedProfile) : Z := profile_id (row_profile r).

(** The photos that the rows of one profile id carry, in row order. *)
Definition photos_for (k : Z) (rows : list JoinedProfile) : list Photo :=
  present_photos (filter (fun r => row_profile_id r =? k) rows).

(** A map entry after the photos of [rows] have been pushed to it, and
    the entry that the first row of a profile id starts. *)
Definition pushed (rows : list JoinedProfile) (kv : Z * ProfileWithPhotos)
  : Z * ProfileWithPhotos :=
  (fst kv,
   mkProfileWithPhotos (pwp_profile (snd kv))
                       (pwp_photos (snd kv) ++ photos_for (fst kv) rows)
                       (pwp_user (snd kv))).

Definition started (rows : list JoinedProfile) (r : JoinedProfile)
  : Z * ProfileWithPhotos :=
  (row_profile_id r,
   mkProfileWithPhotos (row_profile r) (photos_for (row_profile_id r) rows)
                       (row_user r)).

(** A primary photo of the profile with id [pid]. *)
Definition primary_of (pid : Z) (p : Photo) : bool :=
  (photo_profileId p =? pid)
  && match photo_isPrimary p with Some true => true | _ => false end.

(** Sample data for the photo methods. *)
Module Gallery.
Definition alice_profile : Profile :=
  mkProfile 1 "alice" "Alice" 30 (Some false) (Some 0) (Some true) (Some 0).
Definition bob_profile : Profile :=
  mkProfile 2 "bob" "Bob" 40 (Some true) (Some 7) (Some true) (Some 7).
Definition carol_profile : Profile :=
  mkProfile 3 "carol" "Carol" 17 (Some true) (Some 9) (Some true) (Some 9).

Definition db : Db :=
  mkDb [Sample.alice; Sample.bob; Sample.carol]
       [alice_profile; bob_profile; carol_profile] [] [] [] 0 0 0.

(** Two photos of alice (the first one primary) and one of bob. *)
Definition photos : PhotoTable :=
  mkPhotoTable
    [mkPhoto 1 1 "a1.jpg" (Some true) (Some 1) 5;
     mkPhoto 2 1 "a0.jpg" (Some false) (Some 0) 6;
     mkPhoto 3 2 "b.jpg" (Some true) (Some 0) 7]
    3.
End Gallery.

(** * Properties *)

(** ** Generic facts *)

Lemma bind_returned {A B} (m : Storage A) (k : A -> Storage B) d a d' :
  m d = (Returned a, d') -> bind m k d = k a d'.
Proof. intros H. unfold bind. now rewrite H. Qed.

Lemma bind_thrown {A B} (m : Storage A) (k : A -> Storage B) d e d' :
  m d = (Thrown e, d') -> bind m k d = (Thrown e, d').
Proof. intros H. unfold bind. now rewrite H. Qed.

Lemma set_likes_same d : set_likes (likes d) (likes_id_seq d) d = d.
Proof. now destruct d. Qed.

Lemma set_messages_same d : set_messages (messages d) (messages_id_seq d) d = d.
Proof. now destruct d. Qed.

Lemma filter_all_true {A} (f : A -> bool) (l : list A) :
  (forall x, In x l -> f x = true) -> filter f l = l.
Proof.
  induction l as [|x l IH]; intros H; simpl; [reflexivity|].
  rewrite (H x (or_introl eq_refl)). f_equal. apply IH.
  intros y Hy. apply H. now right.
Qed.

Lemma like_is_spec liker liked l :
  like_is liker liked l = true <-> likerId l = liker /\ likedId l = liked.
Proof.
  unfold like_is. rewrite andb_true_iff, !String.eqb_eq. tauto.
Qed.

(** ** Likes *)

Lemma addLike_returns now like d :
  user_exists d (il_likerId like) = true ->
  user_exists d (il_likedId like) = true ->
  addLike now like d =
    (Returned (mkLike (likes_id_seq d + 1) (il_likerId like) (il_likedId like) now),
     set_likes (likes d ++ [mkLike (likes_id_seq d + 1) (il_likerId like)
                                   (il_likedId like) now])
               (likes_id_seq d + 1) d).
Proof. intros Ha Hb. unfold addLike. now rewrite Ha, Hb. Qed.

Lemma addLike_throws now like d :
  user_exists d (il_likerId like) && user_exists d (il_likedId like) = false ->
  addLike now like d
  = (Thrown ForeignKeyViolation, set_likes (likes d) (likes_id_seq d + 1) d).
Proof. intros H. unfold addLike. now rewrite H. Qed.

(** The membership test the like route runs on [getMutualLikes]. *)
Lemma includes_spec l x : includes l x = true <-> In x l.
Proof.
  unfold includes. rewrite existsb_exists. split.
  - intros [y [Hy E]]. apply String.eqb_eq in E. now subst.
  - intros H. exists x. split; [exact H | apply String.eqb_refl].
Qed.

Lemma includes_mutual_aux (A B : string) (L l0 : list Like) :
  includes
    (map likedId
       (filter (fun l => String.eqb (likerId l) A
                         && existsb (fun l2 => like_is (likedId l) (likerId l) l2) L)
               l0)) B
  = existsb (like_is A B) l0 && existsb (like_is B A) L.
Proof.
  apply Bool.eq_iff_eq_true.
  rewrite includes_spec, in_map_iff, andb_true_iff, existsb_exists.
  split.
  - intros [l [HB Hl]]. apply filter_In in Hl. destruct Hl as [Hin Hl].
    apply andb_true_iff in Hl. destruct Hl as [HA HX].
    apply String.eqb_eq in HA. rewrite HB, HA in HX. split; [|exact HX].
    exists l. split; [exact Hin | now apply like_is_spec].
  - intros [[l [Hin Hl]] HX]. apply like_is_spec in Hl. destruct Hl as [HA HB].
    exists l. split; [exact HB|]. apply filter_In. split; [exact Hin|].
    rewrite HA, HB, String.eqb_refl. exact HX.
Qed.

Lemma includes_getMutualLikes (A B : string) (d : Db) :
  includes (getMutualLikes A d) B = has_like d A B && has_like d B A.
Proof. apply includes_mutual_aux. Qed.

Lemma has_like_after_insert d ls seq liker liked :
  has_like (set_likes ls seq d) liker liked = existsb (like_is liker liked) ls.
Proof. reflexivity. Qed.

(** What [POST /api/likes] answers for a well-formed request between two
    stored users: the new edge is appended, and the flag is the
    conjunction the mutual-like query computes on the store that already
    holds the new edge. *)
Lemma post_likes_returns now A B body d :
  obj_get "likedId" body = Some (JString B) ->
  user_exists d A = true ->
  user_exists d B = true ->
  let like := mkLike (likes_id_seq d + 1) A B now in
  let d' := set_likes (likes d ++ [like]) (likes_id_seq d + 1) d in
  post_likes now A body d = (Json200 (like, has_like d' B A), d').
Proof.
  intros Hb HA HB like d'.
  pose proof (addLike_returns now (mkInsertLike A B) d HA HB) as E.
  cbn [il_likerId il_likedId] in E. fold like in E. fold d' in E.
  unfold post_likes, try_catch, post_likes_body, insertLikeSchema_parse, lift.
  unfold obj_set. simpl obj_get. rewrite Hb. simpl z_string.
  unfold bind at 1.
  rewrite (bind_returned _ _ _ _ _ E).
  unfold bind, query, ret. cbn [il_likedId].
  rewrite includes_getMutualLikes.
  assert (has_like d' A B = true) as ->; [|reflexivity].
  unfold d'. rewrite has_like_after_insert, existsb_app. simpl.
  unfold like_is at 2. simpl. rewrite !String.eqb_refl. simpl.
  now rewrite orb_true_r.
Qed.

Lemma post_likes_rejects now A B body d :
  obj_get "likedId" body = Some (JString B) ->
  user_exists d A && user_exists d B = false ->
  post_likes now A body d
  = (Json500 "Failed to add like", set_likes (likes d) (likes_id_seq d + 1) d).
Proof.
  intros Hb Hfk.
  pose proof (addLike_throws now (mkInsertLike A B) d Hfk) as E.
  unfold post_likes, try_catch, post_likes_body, insertLikeSchema_parse, lift.
  unfold obj_set. simpl obj_get. rewrite Hb. simpl z_string.
  unfold bind at 1.
  now rewrite (bind_thrown _ _ _ _ _ E).
Qed.

(** C1 (amended).  [POST /api/likes] by A with [likedId = B] succeeds
    exactly when A and B are stored users; otherwise it answers 500 and
    stores nothing (the failed insert has only drawn a sequence value).
    When it succeeds it appends the edge (A, B) and
    answers [isMatch = true] exactly when the reverse edge (B, A) is in
    the likes store at the moment of the check, that is, after the insert.
    In terms of the store before the request: [isMatch] is true exactly
    when B had already liked A or B is A itself (a self-like is its own
    reverse edge).  So for B other than A with no prior edge from B the
    answer is false, and after B has liked A the answer is true. *)
Theorem post_likes_isMatch_iff_reverse_edge now A B body d :
  obj_get "likedId" body = Some (JString B) ->
  (user_exists d A && user_exists d B = false
   /\ post_likes now A body d
      = (Json500 "Failed to add like",
         set_likes (likes d) (likes_id_seq d + 1) d))
  \/ (user_exists d A && user_exists d B = true
      /\ exists like isMatch d',
          post_likes now A body d = (Json200 (like, isMatch), d')
          /\ likes d' = likes d ++ [like]
          /\ likerId like = A /\ likedId like = B
          /\ (isMatch = true <-> has_like d' B A = true)
          /\ (isMatch = true <-> B = A \/ has_like d B A = true)
          /\ (B <> A -> has_like d B A = false -> isMatch = false)
          /\ (has_like d B A = true -> isMatch = true)).
Proof.
  intros Hb.
  destruct (user_exists d A && user_exists d B) eqn:Hfk;
    [right | left; split; [reflexivity | now apply post_likes_rejects with B]].
  split; [reflexivity|].
  apply andb_true_iff in Hfk. destruct Hfk as [HA HB].
  set (like := mkLike (likes_id_seq d + 1) A B now).
  set (d' := set_likes (likes d ++ [like]) (likes_id_seq d + 1) d).
  assert (Hrev : has_like d' B A = true <-> B = A \/ has_like d B A = true).
  { unfold d'. rewrite has_like_after_insert, existsb_app, orb_true_iff.
    fold (has_like d B A). simpl. rewrite orb_false_r.
    unfold like. rewrite like_is_spec. simpl. intuition congruence. }
  exists like, (has_like d' B A), d'.
  split; [now apply post_likes_returns|].
  repeat split; try tauto.
  intros Hne Hno. destruct (has_like d' B A) eqn:E; [|reflexivity].
  destruct Hrev as [Hrev _]. destruct (Hrev eq_refl); congruence.
Qed.

Lemma post_likes_isMatch_witness :
  exists like isMatch d',
    post_likes 10 "bob" (Sample.like_body "alice") Sample.db0
    = (Json200 (like, isMatch), d')
    /\ isMatch = false.
Proof.
  destruct (post_likes_isMatch_iff_reverse_edge
              10 "bob" "alice" (Sample.like_body "alice") Sample.db0 eq_refl)
    as [[Hfk _] | (_ & like & isMatch & d' & Hrun & _ & _ & _ & _ & _ & Hno & _)].
  - discriminate Hfk.
  - exists like, isMatch, d'. split; [exact Hrun|].
    apply Hno; [discriminate | reflexivity].
Defined.

(** C1 as stated fails for a self-like: with no prior edge at all, a
    user liking themself is answered [isMatch = true]. *)
Lemma post_likes_self_like_matches :
  has_like Sample.db0 "alice" "alice" = false
  /\ exists like d',
       post_likes 10 "alice" (Sample.like_body "alice") Sample.db0
       = (Json200 (like, true), d').
Proof.
  split; [reflexivity|]. eexists. eexists. vm_compute. reflexivity.
Qed.

(** C2 (amended).  [addLike] is a plain insert and is not idempotent: for
    stored users A and B each call returns a new edge with a fresh id,
    neither call is rejected, and two calls leave two more stored edges of
    the pair (A, B) than there were. *)
Theorem addLike_twice_appends_two t1 t2 A B d :
  user_exists d A = true ->
  user_exists d B = true ->
  exists l1 d1 l2 d2,
    addLike t1 (mkInsertLike A B) d = (Returned l1, d1)
    /\ addLike t2 (mkInsertLike A B) d1 = (Returned l2, d2)
    /\ likes d2 = likes d ++ [l1; l2]
    /\ like_id l1 <> like_id l2
    /\ like_is A B l1 = true /\ like_is A B l2 = true
    /\ count_likes d2 A B = S (S (count_likes d A B)).
Proof.
  intros HA HB.
  pose proof (addLike_returns t1 (mkInsertLike A B) d HA HB) as E1.
  cbn [il_likerId il_likedId] in E1.
  set (l1 := mkLike (likes_id_seq d + 1) A B t1) in *.
  set (d1 := set_likes (likes d ++ [l1]) (likes_id_seq d + 1) d) in *.
  pose proof (addLike_returns t2 (mkInsertLike A B) d1 HA HB) as E2.
  cbn [il_likerId il_likedId] in E2.
  set (l2 := mkLike (likes_id_seq d1 + 1) A B t2) in *.
  set (d2 := set_likes (likes d1 ++ [l2]) (likes_id_seq d1 + 1) d1) in *.
  assert (H1 : like_is A B l1 = true) by (apply like_is_spec; now split).
  assert (H2 : like_is A B l2 = true) by (apply like_is_spec; now split).
  exists l1, d1, l2, d2. repeat split; auto.
  - simpl. now rewrite <- app_assoc.
  - simpl. lia.
  - unfold count_likes. simpl likes. rewrite !filter_app. simpl filter.
    rewrite H1, H2, !length_app. simpl. lia.
Qed.

Lemma addLike_twice_witness :
  exists l1 d1 l2 d2,
    addLike 10 (mkInsertLike "alice" "bob") Sample.db0 = (Returned l1, d1)
    /\ addLike 20 (mkInsertLike "alice" "bob") d1 = (Returned l2, d2)
    /\ count_likes d2 "alice" "bob" = 2%nat.
Proof.
  destruct (addLike_twice_appends_two 10 20 "alice" "bob" Sample.db0
              eq_refl eq_refl)
    as (l1 & d1 & l2 & d2 & E1 & E2 & _ & _ & _ & _ & Hc).
  exists l1, d1, l2, d2. split; [exact E1|]. split; [exact E2|]. exact Hc.
Defined.

(** C2 as stated fails: liking the same user twice stores two edges of
    the pair, and the second call returns a like rather than a Conflict. *)
Lemma addLike_twice_not_idempotent :
  let like := mkInsertLike "alice" "bob" in
  let r1 := addLike 10 like Sample.db0 in
  let r2 := addLike 20 like (snd r1) in
  count_likes Sample.db0 "alice" "bob" = 0%nat
  /\ (exists l, fst r2 = Returned l)
  /\ count_likes (snd r2) "alice" "bob" = 2%nat.
Proof.
  split; [reflexivity|]. split; [|reflexivity].
  eexists. vm_compute. reflexivity.
Qed.

(** C10.  [removeLike] deletes every stored edge of the ordered pair and
    keeps every other edge in place; it returns normally whether or not
    an edge existed, the route answers success, and when the pair had no
    edge the store is left exactly as it was. *)
Theorem removeLike_deletes_pair_silently liker liked d :
  let d' := snd (removeLike liker liked d) in
  fst (removeLike liker liked d) = Returned tt
  /\ delete_likes liker liked d = (Json200 true, d')
  /\ likes d' = filter (fun l => negb (like_is liker liked l)) (likes d)
  /\ has_like d' liker liked = false
  /\ (forall l, In l (likes d) -> like_is liker liked l = false -> In l (likes d'))
  /\ (has_like d liker liked = false -> d' = d).
Proof.
  cbv zeta. repeat split.
  - unfold has_like. simpl. apply not_true_is_false. intros H.
    apply existsb_exists in H. destruct H as [l [Hin Hl]].
    apply filter_In in Hin. destruct Hin as [_ Hn]. now rewrite Hl in Hn.
  - intros l Hin Hl. simpl. apply filter_In. split; [exact Hin|].
    now rewrite Hl.
  - intros Hno. simpl. rewrite filter_all_true; [apply set_likes_same|].
    intros l Hin. destruct (like_is liker liked l) eqn:E; [|reflexivity].
    assert (has_like d liker liked = true) as Hyes
        by (apply existsb_exists; now exists l).
    congruence.
Qed.

Lemma removeLike_missing_witness :
  delete_likes "alice" "bob" Sample.db0 = (Json200 true, Sample.db0).
Proof.
  destruct (removeLike_deletes_pair_silently "alice" "bob" Sample.db0)
    as (_ & Hroute & _ & _ & _ & Hsame).
  rewrite Hroute, (Hsame eq_refl). reflexivity.
Defined.

(** ** Sending a message *)

Lemma sendMessage_returns now message d :
  user_exists d (im_senderId message) = true ->
  user_exists d (im_receiverId message) = true ->
  let newMessage :=
    mkMessage (messages_id_seq d + 1) (im_senderId message)
              (im_receiverId message) (im_content message)
              (match im_isRead message with None => Some false | Some v => v end)
              now in
  sendMessage now message d =
    (Returned newMessage,
     set_messages (messages d ++ [newMessage]) (messages_id_seq d + 1) d).
Proof. intros Ha Hb. unfold sendMessage. now rewrite Ha, Hb. Qed.

(** What [POST /api/messages] does with a body that carries a string
    [receiverId] and a string [content], between two stored users. *)
Lemma post_messages_returns now cs S R c i body d :
  obj_get "receiverId" body = Some (JString R) ->
  obj_get "content" body = Some (JString c) ->
  z_boolean_nullable_optional (obj_get "isRead" body) = Returned i ->
  user_exists d S = true ->
  user_exists d R = true ->
  let m :=
    mkMessage (messages_id_seq d + 1) S R c
              (match i with None => Some false | Some v => v end) now in
  post_messages now cs S body d =
    (Json200 m,
     map (fun client => mkPush (ws_id client) m)
         (filter (fun client =>
                    is_open client && (client_is client R || client_is client S))
                 cs),
     set_messages (messages d ++ [m]) (messages_id_seq d + 1) d).
Proof.
  intros HR Hc Hi HS HR' m.
  pose proof (sendMessage_returns now (mkInsertMessage S R c i) d HS HR') as E.
  cbn [im_senderId im_receiverId im_content im_isRead] in E. fold m in E.
  unfold post_messages, post_messages_body, insertMessageSchema_parse, lift.
  unfold obj_set. simpl obj_get. rewrite HR, Hc, Hi. simpl z_string.
  unfold bind at 1.
  rewrite (bind_returned _ _ _ _ _ E).
  unfold ret. reflexivity.
Qed.

Lemma sendMessage_throws now message d :
  user_exists d (im_senderId message) && user_exists d (im_receiverId message)
  = false ->
  sendMessage now message d
  = (Thrown ForeignKeyViolation,
     set_messages (messages d) (messages_id_seq d + 1) d).
Proof. intros H. unfold sendMessage. now rewrite H. Qed.

Lemma post_messages_rejects now cs S R c i body d :
  obj_get "receiverId" body = Some (JString R) ->
  obj_get "content" body = Some (JString c) ->
  z_boolean_nullable_optional (obj_get "isRead" body) = Returned i ->
  user_exists d S && user_exists d R = false ->
  post_messages now cs S body d
  = (Json500 "Failed to send message", [],
     set_messages (messages d) (messages_id_seq d + 1) d).
Proof.
  intros HR Hc Hi Hfk.
  pose proof (sendMessage_throws now (mkInsertMessage S R c i) d Hfk) as E.
  unfold post_messages, post_messages_body, insertMessageSchema_parse, lift.
  unfold obj_set. simpl obj_get. rewrite HR, Hc, Hi. simpl z_string.
  unfold bind at 1.
  now rewrite (bind_thrown _ _ _ _ _ E).
Qed.

(** The [blocks] table is never read on the way: the answer and the
    frames sent are the same whatever it holds. *)
Lemma post_messages_blocks_irrelevant now cs S body bs seq d :
  fst (post_messages now cs S body (set_blocks bs seq d))
  = fst (post_messages now cs S body d)
  /\ messages (snd (post_messages now cs S body (set_blocks bs seq d)))
     = messages (snd (post_messages now cs S body d)).
Proof.
  unfold post_messages, post_messages_body, lift, bind.
  destruct (insertMessageSchema_parse (obj_set "senderId" (JString S) body))
    as [messageData|e]; [|now split].
  unfold sendMessage, user_exists. simpl users.
  destruct (existsb _ (users d) && existsb _ (users d)); now split.
Qed.

(** C6 (amended).  The insert schema accepts every string as [content],
    the empty and the whitespace-only ones included, and nothing else
    inspects it.  Whatever the content, [POST /api/messages] succeeds
    exactly when sender and receiver are stored users: it then answers
    200 with the new message, whose content is the string as sent, and
    stores exactly that one message; otherwise it answers 500 and stores
    nothing (the failed insert has only drawn a sequence value). *)
Theorem post_messages_accepts_any_content now cs S R (c : string) i body d :
  obj_get "receiverId" body = Some (JString R) ->
  obj_get "content" body = Some (JString c) ->
  z_boolean_nullable_optional (obj_get "isRead" body) = Returned i ->
  (user_exists d S && user_exists d R = false
   /\ post_messages now cs S body d
      = (Json500 "Failed to send message", [],
         set_messages (messages d) (messages_id_seq d + 1) d))
  \/ (user_exists d S && user_exists d R = true
      /\ exists m sent d',
          post_messages now cs S body d = (Json200 m, sent, d')
          /\ messages d' = messages d ++ [m]
          /\ senderId m = S /\ receiverId m = R /\ content m = c
          /\ message_createdAt m = now).
Proof.
  intros HR Hc Hi.
  destruct (user_exists d S && user_exists d R) eqn:Hfk;
    [right | left; split; [reflexivity | now apply post_messages_rejects with R c i]].
  split; [reflexivity|].
  apply andb_true_iff in Hfk. destruct Hfk as [HS HR'].
  pose proof (post_messages_returns now cs S R c i body d HR Hc Hi HS HR') as E.
  cbv zeta in E. do 3 eexists. split; [exact E|]. now repeat split.
Qed.

Lemma post_messages_accepts_any_content_witness :
  exists m sent d',
    post_messages 10 [] "alice" (Sample.message_body "bob" EmptyString) Sample.db0
    = (Json200 m, sent, d')
    /\ messages d' = [m] /\ content m = EmptyString.
Proof.
  destruct (post_messages_accepts_any_content
              10 [] "alice" "bob" EmptyString None
              (Sample.message_body "bob" EmptyString)
              Sample.db0 eq_refl eq_refl eq_refl)
    as [[Hfk _] | (_ & m & sent & d' & E & Hm & _ & _ & Hc & _)].
  - discriminate Hfk.
  - exists m, sent, d'. split; [exact E|]. split; [exact Hm | exact Hc].
Defined.

(** C6 as stated fails: an empty content and a content of three spaces
    are both answered 200 and stored. *)
Lemma post_messages_blank_content_stored :
  (exists m d',
      post_messages 10 [] "alice" (Sample.message_body "bob" EmptyString) Sample.db0
      = (Json200 m, [], d')
      /\ messages d' = [m] /\ content m = EmptyString)
  /\ (exists m d',
         post_messages 10 [] "alice" (Sample.message_body "bob" "   ") Sample.db0
         = (Json200 m, [], d')
         /\ messages d' = [m] /\ content m = "   ").
Proof.
  split; do 2 eexists; (split; [vm_compute; reflexivity|]); split; reflexivity.
Qed.

(** C7 (amended).  Sending consults no block: when a block edge exists
    between sender and receiver, in either direction, [POST /api/messages]
    between stored users still answers 200 and stores the message, exactly
    as it would with an empty [blocks] table, which it leaves untouched. *)
Theorem post_messages_ignores_blocks now cs S R c i body d :
  has_block d S R = true \/ has_block d R S = true ->
  obj_get "receiverId" body = Some (JString R) ->
  obj_get "content" body = Some (JString c) ->
  z_boolean_nullable_optional (obj_get "isRead" body) = Returned i ->
  user_exists d S = true ->
  user_exists d R = true ->
  exists m sent d',
    post_messages now cs S body d = (Json200 m, sent, d')
    /\ messages d' = messages d ++ [m]
    /\ senderId m = S /\ receiverId m = R /\ content m = c
    /\ blocks d' = blocks d
    /\ fst (post_messages now cs S body (set_blocks [] 0 d)) = (Json200 m, sent).
Proof.
  intros _ HR Hc Hi HS HR'.
  pose proof (post_messages_returns now cs S R c i body d HR Hc Hi HS HR') as E.
  cbv zeta in E. do 3 eexists. split; [exact E|]. repeat split.
  destruct (post_messages_blocks_irrelevant now cs S body [] 0 d) as [-> _].
  now rewrite E.
Qed.

Lemma post_messages_ignores_blocks_witness :
  exists m sent d',
    post_messages 10 [] "bob" (Sample.message_body "alice" "hi") Sample.db_blocked
    = (Json200 m, sent, d')
    /\ messages d' = [m] /\ senderId m = "bob" /\ receiverId m = "alice".
Proof.
  destruct (post_messages_ignores_blocks
              10 [] "bob" "alice" "hi" None (Sample.message_body "alice" "hi")
              Sample.db_blocked (or_intror eq_refl)
              eq_refl eq_refl eq_refl eq_refl eq_refl)
    as (m & sent & d' & E & Hm & Hs & Hr & _).
  exists m, sent, d'. repeat split; assumption.
Defined.

(** C7 as stated fails: alice has blocked bob, and a message in either
    direction between them is answered 200 and stored. *)
Lemma post_messages_despite_block :
  has_block Sample.db_blocked "alice" "bob" = true
  /\ (exists m d',
         post_messages 10 [] "bob" (Sample.message_body "alice" "hi")
                       Sample.db_blocked
         = (Json200 m, [], d')
         /\ messages d' = [m])
  /\ (exists m d',
         post_messages 10 [] "alice" (Sample.message_body "bob" "hi")
                       Sample.db_blocked
         = (Json200 m, [], d')
         /\ messages d' = [m]).
Proof.
  split; [reflexivity|].
  split; do 2 eexists; (split; [vm_compute; reflexivity|]); reflexivity.
Qed.

(** ** Read receipts *)

Lemma in_same_key {A} (f : A -> Z) (l : list A) x y :
  NoDup (map f l) -> In x l -> In y l -> f x = f y -> x = y.
Proof.
  induction l as [|a l IH]; simpl; intros Hnd Hx Hy E; [contradiction|].
  inversion Hnd as [|? ? Hnotin Hnd']; subst.
  destruct Hx as [Hx|Hx], Hy as [Hy|Hy]; subst.
  - reflexivity.
  - exfalso. apply Hnotin. rewrite E. now apply in_map.
  - exfalso. apply Hnotin. rewrite <- E. now apply in_map.
  - now apply IH.
Qed.

Lemma map_unchanged {A} (f : A -> A) (l : list A) :
  (forall x, In x l -> f x = x) -> map f l = l.
Proof.
  induction l as [|a l IH]; simpl; intros H; [reflexivity|].
  rewrite (H a (or_introl eq_refl)). f_equal. apply IH.
  intros x Hx. apply H. now right.
Qed.

Lemma mark_row_receiver M :
  mark_row (message_id M) (receiverId M) M
  = mkMessage (message_id M) (senderId M) (receiverId M) (content M)
              (Some true) (message_createdAt M).
Proof. unfold mark_row. now rewrite Z.eqb_refl, String.eqb_refl. Qed.

Lemma mark_row_other messageId A m :
  receiverId m <> A -> mark_row messageId A m = m.
Proof.
  intros H. unfold mark_row. apply String.eqb_neq in H. rewrite H.
  now rewrite andb_false_r.
Qed.

(** C8 (amended).  [markMessageAsRead (M.id, A)] never fails.  When A is
    the receiver of M it leaves M with [isRead = true] and every other
    field as it was; when A is not the receiver it returns normally all
    the same, M stays in the table as it was, and, ids being the primary
    key, the whole database is unchanged. *)
Theorem markMessageAsRead_receiver_only M A d :
  In M (messages d) ->
  let r := markMessageAsRead (message_id M) A d in
  fst r = Returned tt
  /\ List.length (messages (snd r)) = List.length (messages d)
  /\ (A = receiverId M ->
      In (mkMessage (message_id M) (senderId M) (receiverId M) (content M)
                    (Some true) (message_createdAt M))
         (messages (snd r)))
  /\ (A <> receiverId M -> In M (messages (snd r)))
  /\ (A <> receiverId M -> NoDup (map message_id (messages d)) -> snd r = d).
Proof.
  intros Hin r. subst r. simpl. repeat split.
  - apply length_map.
  - intros ->. rewrite <- mark_row_receiver. now apply in_map.
  - intros Hne.
    assert (E : mark_row (message_id M) A M = M)
      by (apply mark_row_other; congruence).
    rewrite <- E at 1. now apply in_map.
  - intros Hne Hpk. rewrite map_unchanged; [apply set_messages_same|].
    intros m Hm. unfold mark_row.
    destruct (message_id m =? message_id M) eqn:E; [|reflexivity].
    apply Z.eqb_eq in E.
    rewrite (in_same_key message_id (messages d) m M Hpk Hm Hin E).
    simpl. assert (String.eqb (receiverId M) A = false) as ->; [|reflexivity].
    apply String.eqb_neq. congruence.
Qed.

Lemma markMessageAsRead_witness :
  fst (markMessageAsRead 1 "carol" Sample.db_hello) = Returned tt
  /\ snd (markMessageAsRead 1 "carol" Sample.db_hello) = Sample.db_hello
  /\ In (mkMessage 1 "alice" "bob" "hello" (Some true) 5)
        (messages (snd (markMessageAsRead 1 "bob" Sample.db_hello))).
Proof.
  assert (Hin : In Sample.hello (messages Sample.db_hello)) by (simpl; auto).
  destruct (markMessageAsRead_receiver_only Sample.hello "carol" Sample.db_hello Hin)
    as (Hret & _ & _ & _ & Hsame).
  destruct (markMessageAsRead_receiver_only Sample.hello "bob" Sample.db_hello Hin)
    as (_ & _ & Hread & _).
  split; [exact Hret|]. split.
  - apply Hsame; [discriminate|]. simpl. repeat constructor. simpl. tauto.
  - exact (Hread eq_refl).
Defined.

(** C8 as stated fails: carol, who is not the receiver of alice's message
    to bob, marks it read; the call returns normally and throws nothing
    (the message does stay unread). *)
Lemma markMessageAsRead_stranger_not_rejected :
  receiverId Sample.hello <> "carol"
  /\ fst (markMessageAsRead (message_id Sample.hello) "carol" Sample.db_hello)
     = Returned tt
  /\ ~ (exists e,
           fst (markMessageAsRead (message_id Sample.hello) "carol" Sample.db_hello)
           = Thrown e)
  /\ messages (snd (markMessageAsRead (message_id Sample.hello) "carol"
                                       Sample.db_hello))
     = [Sample.hello].
Proof.
  split; [discriminate|]. split; [reflexivity|]. split; [|reflexivity].
  intros [e He]. discriminate He.
Qed.

(** ** Presence *)

Lemma status_row_userId U b now p :
  profile_userId (status_row U b now p) = profile_userId p.
Proof. unfold status_row. now destruct (String.eqb (profile_userId p) U). Qed.

Lemma profiles_of_updateOnlineStatus U b now d :
  profiles_of U (snd (updateOnlineStatus now U b d))
  = map (status_row U b now) (profiles_of U d).
Proof.
  unfold profiles_of. simpl.
  induction (profiles d) as [|p ps IH]; simpl; [reflexivity|].
  rewrite status_row_userId.
  destruct (String.eqb (profile_userId p) U); simpl; now rewrite IH.
Qed.

Lemma profiles_of_stamped U b now d :
  Forall (fun p => profile_isOnline p = Some b /\ profile_lastSeen p = Some now)
         (profiles_of U (snd (updateOnlineStatus now U b d))).
Proof.
  rewrite profiles_of_updateOnlineStatus. apply Forall_map.
  apply Forall_forall. intros p Hp. apply filter_In in Hp.
  destruct Hp as [_ Hp]. unfold status_row. now rewrite Hp.
Qed.

Lemma persisted_offline_after_false U now d :
  persisted_online U (snd (updateOnlineStatus now U false d)) = false.
Proof.
  unfold persisted_online. apply not_true_is_false. intros H.
  apply existsb_exists in H. destruct H as [p [Hp Hon]].
  pose proof (profiles_of_stamped U false now d) as Hall.
  rewrite Forall_forall in Hall. destruct (Hall p Hp) as [E _].
  now rewrite E in Hon.
Qed.

Lemma find_other_socket c1 c2 (cs : list WebSocket) :
  c1 <> c2 ->
  find (has_id c2) (filter (fun c => negb (has_id c1 c)) cs)
  = find (has_id c2) cs.
Proof.
  intros Hne. induction cs as [|c cs IH]; simpl; [reflexivity|].
  destruct (has_id c1 c) eqn:E1; simpl.
  - destruct (has_id c2 c) eqn:E2; [|exact IH].
    unfold has_id in E1, E2. apply Nat.eqb_eq in E1, E2. congruence.
  - rewrite IH. reflexivity.
Qed.

Lemma ws_close_authenticated now id ws U s :
  find (has_id id) (clients s) = Some ws ->
  ws_userId ws = Some U ->
  U <> EmptyString ->
  ws_close now id s
  = mkServer (snd (updateOnlineStatus now U false (db s)))
             (filter (fun c => negb (has_id id c)) (clients s)).
Proof.
  intros Hf Hu Hne. unfold ws_close. rewrite Hf, Hu. simpl truthy.
  apply String.eqb_neq in Hne. now rewrite Hne.
Qed.

Lemma ws_close_empty_id now id ws s :
  find (has_id id) (clients s) = Some ws ->
  ws_userId ws = Some EmptyString ->
  ws_close now id s
  = mkServer (db s) (filter (fun c => negb (has_id id c)) (clients s)).
Proof. intros Hf Hu. unfold ws_close. now rewrite Hf, Hu. Qed.

(** C3 (amended).  The close handler keeps no count of a user's sockets:
    every close of a socket whose [userId] passes the handler's test
    writes offline.  Take two live sockets c1 and c2 authenticated as U,
    who is persisted online.  When U's id is not the empty string,
    closing c1 alone already leaves U persisted offline with [lastSeen]
    the time of that close, while c2 is still connected as U; closing c2
    writes offline again; over the two closes the persisted flag goes
    from online to offline exactly once (at the first close), and
    [lastSeen] ends as the time of the last close.  When U's id is the
    empty string, the test [if (ws.userId)] fails and neither close
    writes anything: U stays persisted online. *)
Theorem ws_close_writes_offline_every_time U c1 c2 ws1 ws2 t1 t2 s :
  c1 <> c2 ->
  find (has_id c1) (clients s) = Some ws1 -> ws_userId ws1 = Some U ->
  find (has_id c2) (clients s) = Some ws2 -> ws_userId ws2 = Some U ->
  persisted_online U (db s) = true ->
  let s1 := ws_close t1 c1 s in
  let s2 := ws_close t2 c2 s1 in
  find (has_id c2) (clients s1) = Some ws2
  /\ (U <> EmptyString ->
      persisted_online U (db s1) = false
      /\ Forall (fun p => profile_isOnline p = Some false
                          /\ profile_lastSeen p = Some t1)
                (profiles_of U (db s1))
      /\ persisted_online U (db s2) = false
      /\ Forall (fun p => profile_isOnline p = Some false
                          /\ profile_lastSeen p = Some t2)
                (profiles_of U (db s2))
      /\ List.length (profiles_of U (db s2)) = List.length (profiles_of U (db s))
      /\ profiles_of U (db s) <> []
      /\ offline_transitions U [db s; db s1; db s2] = 1%nat)
  /\ (U = EmptyString ->
      db s1 = db s
      /\ db s2 = db s
      /\ persisted_online U (db s2) = true
      /\ offline_transitions U [db s; db s1; db s2] = 0%nat).
Proof.
  intros Hne Hf1 Hu1 Hf2 Hu2 Hon s1 s2.
  assert (Hc1 : clients s1 = filter (fun c => negb (has_id c1 c)) (clients s)).
  { unfold s1, ws_close. rewrite Hf1. reflexivity. }
  assert (Hf2' : find (has_id c2) (clients s1) = Some ws2)
    by (rewrite Hc1; now rewrite find_other_socket).
  split; [exact Hf2'|]. split.
  - intros HU.
    assert (E1 : s1 = mkServer (snd (updateOnlineStatus t1 U false (db s)))
                               (filter (fun c => negb (has_id c1 c)) (clients s)))
      by (now apply ws_close_authenticated with (ws := ws1)).
    assert (E2 : s2 = mkServer (snd (updateOnlineStatus t2 U false (db s1)))
                               (filter (fun c => negb (has_id c2 c)) (clients s1)))
      by (now apply ws_close_authenticated with (ws := ws2)).
    assert (H1 : persisted_online U (db s1) = false)
      by (rewrite E1; apply persisted_offline_after_false).
    assert (H2 : persisted_online U (db s2) = false)
      by (rewrite E2; apply persisted_offline_after_false).
    repeat split; try assumption.
    + rewrite E1. apply profiles_of_stamped.
    + rewrite E2. apply profiles_of_stamped.
    + rewrite E2. cbn [db]. rewrite profiles_of_updateOnlineStatus, length_map.
      rewrite E1. cbn [db]. now rewrite profiles_of_updateOnlineStatus, length_map.
    + intros Hnil. unfold persisted_online in Hon. now rewrite Hnil in Hon.
    + simpl. now rewrite Hon, H1.
  - intros HU. subst U.
    assert (E1 : s1 = mkServer (db s)
                               (filter (fun c => negb (has_id c1 c)) (clients s)))
      by (now apply ws_close_empty_id with (ws := ws1)).
    assert (E2 : s2 = mkServer (db s1)
                               (filter (fun c => negb (has_id c2 c)) (clients s1)))
      by (now apply ws_close_empty_id with (ws := ws2)).
    assert (D1 : db s1 = db s) by (now rewrite E1).
    assert (D2 : db s2 = db s) by (rewrite E2; cbn [db]; exact D1).
    split; [exact D1|]. split; [exact D2|]. rewrite D1, D2.
    split; [exact Hon|]. simpl. rewrite Hon. reflexivity.
Qed.

Lemma ws_close_writes_offline_witness :
  let s1 := ws_close 10 1 Sample.two_sockets in
  let s2 := ws_close 20 2 s1 in
  persisted_online "alice" (db Sample.two_sockets) = true
  /\ persisted_online "alice" (db s1) = false
  /\ map profile_lastSeen (profiles_of "alice" (db s2)) = [Some 20].
Proof.
  assert (Hne : 1%nat <> 2%nat) by discriminate.
  assert (HU : "alice" <> EmptyString) by discriminate.
  destruct (ws_close_writes_offline_every_time
              "alice" 1%nat 2%nat
              (mkWebSocket 1 OPEN (Some "alice"))
              (mkWebSocket 2 OPEN (Some "alice"))
              10 20 Sample.two_sockets
              Hne eq_refl eq_refl eq_refl eq_refl eq_refl)
    as (_ & Hnonempty & _).
  destruct (Hnonempty HU) as (H1 & _).
  cbv zeta. split; [reflexivity|]. split; [exact H1 | reflexivity].
Defined.

(** C3 as stated fails: alice is authenticated on sockets 1 and 2 and
    persisted online; closing socket 1 alone leaves alice persisted
    offline although socket 2 is still open and bound to alice. *)
Lemma ws_close_first_socket_goes_offline :
  let s1 := ws_close 10 1 Sample.two_sockets in
  persisted_online "alice" (db Sample.two_sockets) = true
  /\ clients s1 = [mkWebSocket 2 OPEN (Some "alice")]
  /\ persisted_online "alice" (db s1) = false
  /\ map profile_isOnline (profiles_of "alice" (db s1)) = [Some false].
Proof. cbv zeta. repeat split. Qed.

(** ** ORDER BY and LEFT JOIN *)

Section OrderBy.
Context {A : Type} (key : A -> Z).

Lemma insert_asc_perm x l : Permutation (insert_asc key x l) (x :: l).
Proof.
  induction l as [|y l IH]; simpl; [reflexivity|].
  destruct (key x <=? key y); [reflexivity|].
  rewrite IH. apply perm_swap.
Qed.

Lemma orderBy_asc_perm l : Permutation (orderBy_asc key l) l.
Proof.
  induction l as [|x l IH]; simpl; [constructor|].
  rewrite insert_asc_perm. now constructor.
Qed.

Lemma insert_desc_perm x l : Permutation (insert_desc key x l) (x :: l).
Proof.
  induction l as [|y l IH]; simpl; [reflexivity|].
  destruct (key y <=? key x); [reflexivity|].
  rewrite IH. apply perm_swap.
Qed.

Lemma orderBy_desc_perm l : Permutation (orderBy_desc key l) l.
Proof.
  induction l as [|x l IH]; simpl; [constructor|].
  rewrite insert_desc_perm. now constructor.
Qed.

Lemma orderBy_asc_In x l : In x (orderBy_asc key l) <-> In x l.
Proof.
  split; apply Permutation_in;
    [apply orderBy_asc_perm | symmetry; apply orderBy_asc_perm].
Qed.

Lemma orderBy_desc_In x l : In x (orderBy_desc key l) <-> In x l.
Proof.
  split; apply Permutation_in;
    [apply orderBy_desc_perm | symmetry; apply orderBy_desc_perm].
Qed.

Lemma insert_asc_sorted x l :
  StronglySorted (asc key) l -> StronglySorted (asc key) (insert_asc key x l).
Proof.
  induction l as [|y l IH]; simpl; intros Hs.
  - repeat constructor.
  - inversion Hs as [|? ? Hs' Hall]; subst.
    destruct (key x <=? key y) eqn:E.
    + apply Z.leb_le in E. constructor; [exact Hs|].
      constructor; [exact E|].
      eapply Forall_impl; [|exact Hall]. unfold asc. intros; lia.
    + apply Z.leb_gt in E. constructor; [now apply IH|].
      eapply Permutation_Forall; [symmetry; apply insert_asc_perm|].
      constructor; [unfold asc; lia | exact Hall].
Qed.

Lemma orderBy_asc_sorted l : StronglySorted (asc key) (orderBy_asc key l).
Proof.
  induction l as [|x l IH]; simpl; [constructor|].
  now apply insert_asc_sorted.
Qed.

Lemma insert_desc_sorted x l :
  StronglySorted (desc key) l -> StronglySorted (desc key) (insert_desc key x l).
Proof.
  induction l as [|y l IH]; simpl; intros Hs.
  - repeat constructor.
  - inversion Hs as [|? ? Hs' Hall]; subst.
    destruct (key y <=? key x) eqn:E.
    + apply Z.leb_le in E. constructor; [exact Hs|].
      constructor; [exact E|].
      eapply Forall_impl; [|exact Hall]. unfold desc. intros; lia.
    + apply Z.leb_gt in E. constructor; [now apply IH|].
      eapply Permutation_Forall; [symmetry; apply insert_desc_perm|].
      constructor; [unfold desc; lia | exact Hall].
Qed.

Lemma orderBy_desc_sorted l : StronglySorted (desc key) (orderBy_desc key l).
Proof.
  induction l as [|x l IH]; simpl; [constructor|].
  now apply insert_desc_sorted.
Qed.

(** The ascending arrangement of rows with pairwise distinct keys is
    unique: whatever sorts them returns the same list. *)
Lemma sorted_perm_unique l1 l2 :
  Permutation l1 l2 ->
  StronglySorted (asc key) l1 ->
  StronglySorted (fun x y => key x < key y) l2 ->
  l1 = l2.
Proof.
  revert l2. induction l1 as [|x l1 IH]; intros l2 HP H1 H2.
  - apply Permutation_nil in HP. now subst.
  - destruct l2 as [|y l2].
    { symmetry in HP. now apply Permutation_nil in HP. }
    inversion H1 as [|? ? H1' Hx]; subst.
    inversion H2 as [|? ? H2' Hy]; subst.
    rewrite Forall_forall in Hx, Hy.
    assert (E : x = y).
    { destruct (Permutation_in x HP (or_introl eq_refl)) as [E|Hin];
        [now symmetry|].
      symmetry in HP.
      destruct (Permutation_in y HP (or_introl eq_refl)) as [E|Hin'];
        [exact E|].
      specialize (Hx y Hin'). specialize (Hy x Hin). unfold asc in Hx. lia. }
    subst y. f_equal. apply IH; [|exact H1'|exact H2'].
    now apply Permutation_cons_inv with x.
Qed.
End OrderBy.

Section Projection.
Context {A B : Type} (f : A -> B) (key : B -> Z).

Lemma map_insert_asc x l :
  map f (insert_asc (fun a => key (f a)) x l) = insert_asc key (f x) (map f l).
Proof.
  induction l as [|y l IH]; simpl; [reflexivity|].
  destruct (key (f x) <=? key (f y)); simpl; now rewrite ?IH.
Qed.

Lemma map_orderBy_asc l :
  map f (orderBy_asc (fun a => key (f a)) l) = orderBy_asc key (map f l).
Proof.
  induction l as [|x l IH]; simpl; [reflexivity|].
  now rewrite map_insert_asc, IH.
Qed.

Lemma map_filter_comp (p : B -> bool) l :
  map f (filter (fun a => p (f a)) l) = filter p (map f l).
Proof.
  induction l as [|x l IH]; simpl; [reflexivity|].
  destruct (p (f x)); simpl; now rewrite IH.
Qed.
End Projection.

Section LeftJoin.
Context {A B : Type} (on : A -> B -> bool).

Lemma leftJoin_In a ob l r :
  In (a, ob) (leftJoin on l r) <->
  In a l /\ match ob with
            | Some b => In b r /\ on a b = true
            | None => filter (on a) r = []
            end.
Proof.
  unfold leftJoin. rewrite in_flat_map. split.
  - intros [a' [Ha' Hin]].
    destruct (filter (on a') r) as [|b0 bs] eqn:E.
    + destruct Hin as [Hin|[]]. inversion Hin; subst. now split.
    + apply in_map_iff in Hin. destruct Hin as [b [Hb Hin]].
      inversion Hb; subst. split; [exact Ha'|].
      rewrite <- E in Hin. now apply filter_In in Hin.
  - intros [Ha Hob]. exists a. split; [exact Ha|].
    destruct ob as [b|].
    + assert (Hin : In b (filter (on a) r)) by now apply filter_In.
      destruct (filter (on a) r) as [|b0 bs]; [contradiction|].
      apply in_map_iff. now exists b.
    + rewrite Hob. now left.
Qed.

Lemma leftJoin_covers a l r :
  In a l -> exists ob, In (a, ob) (leftJoin on l r).
Proof.
  intros Ha. destruct (filter (on a) r) as [|b bs] eqn:E.
  - exists None. apply leftJoin_In. now split.
  - exists (Some b). apply leftJoin_In. split; [exact Ha|].
    apply filter_In. rewrite E. now left.
Qed.

(** When no left row matches two right rows the join keeps the left
    rows as they are, one joined row each. *)
Lemma leftJoin_fst l r :
  (forall a, In a l -> (List.length (filter (on a) r) <= 1)%nat) ->
  map fst (leftJoin on l r) = l.
Proof.
  unfold leftJoin. induction l as [|a l IH]; intros H; [reflexivity|].
  cbn [flat_map]. rewrite map_app, IH by (intros; apply H; now right).
  specialize (H a (or_introl eq_refl)).
  destruct (filter (on a) r) as [|b [|b' bs]]; simpl in *;
    [reflexivity | reflexivity | lia].
Qed.
End LeftJoin.

(** ** Conversations *)

Lemma map_has_spec {V} k (m : JsMap V) :
  map_has k m = true <-> In k (map fst m).
Proof.
  unfold map_has. rewrite existsb_exists, in_map_iff. split.
  - intros [kv [Hin E]]. apply String.eqb_eq in E. now exists kv.
  - intros [kv [E Hin]]. exists kv. split; [exact Hin|]. now apply String.eqb_eq.
Qed.

(** The grouping loop, on rows in descending [createdAt] order: the map
    grows by one entry per partner not yet seen, taken from the first row
    of that partner, which no other row of the partner is newer than. *)
Lemma group_latest_spec U rows :
  StronglySorted (desc row_createdAt) rows ->
  forall acc, exists news,
    group_latest U rows acc = acc ++ news
    /\ Forall (fun kv =>
                 ~ In (fst kv) (map fst acc)
                 /\ exists row,
                     In row rows
                     /\ fst kv = otherUserId U (fst row)
                     /\ snd kv = entry_of row
                     /\ forall row', In row' rows ->
                                     otherUserId U (fst row') = fst kv ->
                                     row_createdAt row' <= row_createdAt row)
              news
    /\ NoDup (map fst news)
    /\ StronglySorted
         (fun x y => message_createdAt (mwu_message (snd y))
                     <= message_createdAt (mwu_message (snd x)))
         news
    /\ (forall row, In row rows ->
                    In (otherUserId U (fst row)) (map fst (acc ++ news))).
Proof.
  induction rows as [|r rest IH]; intros Hs acc.
  - exists []. rewrite app_nil_r. repeat split; try constructor.
    intros row [].
  - inversion Hs as [|? ? Hs' Hall]; subst.
    rewrite Forall_forall in Hall.
    simpl group_latest.
    destruct (map_has (otherUserId U (fst r)) acc) eqn:Hhas.
    + apply map_has_spec in Hhas.
      destruct (IH Hs' acc) as (news & Heq & Hnews & Hnd & Hsorted & Hcover).
      exists news. split; [exact Heq|]. split; [|split; [exact Hnd|split; [exact Hsorted|]]].
      * eapply Forall_impl; [|exact Hnews].
        intros kv (Hfresh & row & Hrow & Hk & Hv & Hmax).
        split; [exact Hfresh|]. exists row. repeat split; auto.
        { now right. }
        intros row' [<-|Hin] Hk'; [|now apply Hmax].
        exfalso. apply Hfresh. now rewrite <- Hk'.
      * intros row [<-|Hin]; [|now apply Hcover].
        rewrite map_app. apply in_or_app. now left.
    + assert (Hfresh0 : ~ In (otherUserId U (fst r)) (map fst acc)).
      { intros Hin. apply map_has_spec in Hin. congruence. }
      set (x := (otherUserId U (fst r), entry_of r)).
      destruct (IH Hs' (acc ++ [x])) as (news & Heq & Hnews & Hnd & Hsorted & Hcover).
      rewrite Forall_forall in Hnews.
      exists (x :: news).
      split; [rewrite Heq, <- app_assoc; reflexivity|].
      split; [|split; [|split]].
      * constructor.
        { split; [exact Hfresh0|]. exists r. repeat split; auto.
          - now left.
          - intros row' [<-|Hin] _; [lia|]. apply (Hall row' Hin). }
        apply Forall_forall. intros kv Hkv.
        destruct (Hnews kv Hkv) as (Hfresh & row & Hrow & Hk & Hv & Hmax).
        rewrite map_app, in_app_iff in Hfresh. simpl in Hfresh.
        split; [tauto|]. exists row. repeat split; auto.
        { now right. }
        intros row' [<-|Hin] Hk'; [|now apply Hmax].
        exfalso. apply Hfresh. right. left. exact Hk'.
      * simpl. constructor; [|exact Hnd].
        intros Hin. apply in_map_iff in Hin. destruct Hin as [kv [Hk Hkv]].
        destruct (Hnews kv Hkv) as (Hfresh & _).
        apply Hfresh. rewrite map_app, in_app_iff. right. left. now symmetry.
      * constructor; [exact Hsorted|].
        apply Forall_forall. intros kv Hkv.
        destruct (Hnews kv Hkv) as (_ & row & Hrow & _ & Hv & _).
        rewrite Hv. simpl. apply (Hall row Hrow).
      * intros row [<-|Hin].
        { rewrite map_app, in_app_iff. right. now left. }
        specialize (Hcover row Hin).
        now rewrite <- app_assoc in Hcover.
Qed.

Lemma latestMessages_sorted U d :
  StronglySorted (desc row_createdAt) (latestMessages U d).
Proof. apply orderBy_desc_sorted. Qed.

Lemma latestMessages_In U d row :
  In row (latestMessages U d) <->
  In row (leftJoin join_sender (messages d) (users d))
  /\ conversations_where U (fst row) = true.
Proof.
  unfold latestMessages. rewrite orderBy_desc_In. apply filter_In.
Qed.

Lemma join_sender_none d m :
  filter (join_sender m) (users d) = [] -> user_exists d (senderId m) = false.
Proof.
  intros H. unfold user_exists. apply not_true_is_false. intros Hex.
  apply existsb_exists in Hex. destruct Hex as [u [Hin Hu]].
  assert (Hf : In u (filter (join_sender m) (users d))) by now apply filter_In.
  now rewrite H in Hf.
Qed.

Lemma joined_row_on_sender d row :
  In row (leftJoin join_sender (messages d) (users d)) ->
  joined_on_sender d (entry_of row).
Proof.
  destruct row as [m ou]. intros H. apply leftJoin_In in H.
  destruct H as [_ H]. split; [reflexivity|]. simpl.
  destruct ou as [u|].
  - destruct H as [Hin Hon]. split; [exact Hin|]. now apply String.eqb_eq.
  - now apply join_sender_none.
Qed.

Lemma getConversation_rows A B d e :
  In e (getConversation A B d) ->
  exists row,
    e = entry_of row
    /\ In row (leftJoin join_sender (messages d) (users d))
    /\ conversation_where A B (fst row) = true.
Proof.
  unfold getConversation. intros H. apply in_map_iff in H.
  destruct H as [row [<- Hin]]. apply orderBy_asc_In, filter_In in Hin.
  now exists row.
Qed.

Lemma getConversations_rows U d e :
  In e (getConversations U d) ->
  exists row,
    e = entry_of row
    /\ In row (leftJoin join_sender (messages d) (users d))
    /\ conversations_where U (fst row) = true.
Proof.
  unfold getConversations, map_values. intros H.
  destruct (group_latest_spec U (latestMessages U d) (latestMessages_sorted U d) [])
    as (news & Heq & Hnews & _).
  rewrite Heq in H. simpl in H. apply in_map_iff in H.
  destruct H as [kv [<- Hkv]]. rewrite Forall_forall in Hnews.
  destruct (Hnews kv Hkv) as (_ & row & Hrow & _ & Hv & _).
  apply latestMessages_In in Hrow. exists row. now split.
Qed.

(** C9 (amended).  Every entry that [getConversation] or
    [getConversations] returns has, as [receiver], the very value it has
    as [sender]: the [users] row joined on the message's [senderId].  So
    the returned receiver object describes the actual receiving user
    exactly when the message was sent by a user to themself. *)
Theorem conversation_receiver_is_sender A B U d :
  Forall (joined_on_sender d) (getConversation A B d)
  /\ Forall (joined_on_sender d) (getConversations U d)
  /\ forall e u,
       In e (getConversation A B d ++ getConversations U d) ->
       receiver e = Some u ->
       sender e = Some u
       /\ user_id u = senderId (mwu_message e)
       /\ (user_id u = receiverId (mwu_message e)
           <-> senderId (mwu_message e) = receiverId (mwu_message e)).
Proof.
  assert (H1 : Forall (joined_on_sender d) (getConversation A B d)).
  { apply Forall_forall. intros e He.
    destruct (getConversation_rows A B d e He) as (row & -> & Hrow & _).
    now apply joined_row_on_sender. }
  assert (H2 : Forall (joined_on_sender d) (getConversations U d)).
  { apply Forall_forall. intros e He.
    destruct (getConversations_rows U d e He) as (row & -> & Hrow & _).
    now apply joined_row_on_sender. }
  split; [exact H1|]. split; [exact H2|].
  intros e u He Hu.
  assert (Hj : joined_on_sender d e).
  { apply in_app_or in He. rewrite Forall_forall in H1, H2.
    destruct He; auto. }
  destruct Hj as [Hrs Hs]. rewrite Hrs in Hu. rewrite Hu in Hs.
  destruct Hs as [_ Hid]. split; [exact Hu|]. split; [exact Hid|].
  rewrite Hid. tauto.
Qed.

Lemma conversation_receiver_is_sender_witness :
  let e := mkMessageWithUsers Sample.hello (Some Sample.alice) (Some Sample.alice) in
  In e (getConversation "alice" "bob" Sample.db_hello
        ++ getConversations "alice" Sample.db_hello)
  /\ sender e = Some Sample.alice
  /\ user_id Sample.alice = senderId Sample.hello
  /\ user_id Sample.alice <> receiverId Sample.hello.
Proof.
  cbv zeta.
  assert (Hin : In (mkMessageWithUsers Sample.hello (Some Sample.alice)
                                       (Some Sample.alice))
                   (getConversation "alice" "bob" Sample.db_hello
                    ++ getConversations "alice" Sample.db_hello))
    by (simpl; auto).
  split; [exact Hin|].
  destruct (conversation_receiver_is_sender "alice" "bob" "alice" Sample.db_hello)
    as (_ & _ & H).
  destruct (H _ _ Hin eq_refl) as (Hs & Hid & Hiff).
  split; [exact Hs|]. split; [exact Hid|].
  intros E. apply Hiff in E. discriminate E.
Defined.

(** C9 as stated fails for a message a user sent to themself: the entry's
    receiver object is then the row of the user who received it. *)
Lemma conversation_receiver_right_for_self_message :
  getConversations "alice" Sample.db_note
  = [mkMessageWithUsers Sample.note (Some Sample.alice) (Some Sample.alice)]
  /\ getConversation "alice" "alice" Sample.db_note
     = [mkMessageWithUsers Sample.note (Some Sample.alice) (Some Sample.alice)]
  /\ user_id Sample.alice = receiverId Sample.note.
Proof. repeat split. Qed.

Lemma StronglySorted_map {A B} (f : A -> B) (R : B -> B -> Prop) l :
  StronglySorted (fun x y => R (f x) (f y)) l -> StronglySorted R (map f l).
Proof.
  induction 1 as [|x l Hs IH Hall]; simpl; constructor; [exact IH|].
  apply Forall_map. exact Hall.
Qed.

Lemma conversations_where_spec U m :
  conversations_where U m = true <-> senderId m = U \/ receiverId m = U.
Proof.
  unfold conversations_where. now rewrite orb_true_iff, !String.eqb_eq.
Qed.

(** [otherUserId] names the other end of a message that involves the
    user, whichever end the user is on. *)
Lemma otherUserId_other_party U m :
  conversations_where U m = true ->
  (senderId m = U /\ receiverId m = otherUserId U m)
  \/ (receiverId m = U /\ senderId m <> U /\ senderId m = otherUserId U m).
Proof.
  intros H. apply conversations_where_spec in H. unfold otherUserId.
  destruct (String.eqb (senderId m) U) eqn:E.
  - apply String.eqb_eq in E. now left.
  - apply String.eqb_neq in E. right. destruct H; [contradiction|]. now split.
Qed.

(** C5.  [getConversations U] returns one entry per distinct partner of
    U: the partners of the entries are pairwise distinct and are exactly
    the other parties of the stored messages that U sent or received;
    each entry is a stored message of U with that partner which no other
    message with the same partner is newer than; the entries are in
    descending [createdAt] order; and the partner is the other end of the
    message whether U is its sender or its receiver. *)
Theorem getConversations_latest_per_partner U d :
  let res := getConversations U d in
  NoDup (map (partner U) res)
  /\ (forall p,
        In p (map (partner U) res) <->
        exists m, In m (messages d)
                  /\ conversations_where U m = true
                  /\ otherUserId U m = p)
  /\ Forall (fun e =>
               In (mwu_message e) (messages d)
               /\ conversations_where U (mwu_message e) = true
               /\ forall m, In m (messages d) ->
                            conversations_where U m = true ->
                            otherUserId U m = partner U e ->
                            message_createdAt m
                            <= message_createdAt (mwu_message e))
            res
  /\ StronglySorted
       (fun x y => message_createdAt (mwu_message y)
                   <= message_createdAt (mwu_message x))
       res
  /\ (forall m,
        conversations_where U m = true ->
        (senderId m = U /\ receiverId m = otherUserId U m)
        \/ (receiverId m = U /\ senderId m <> U /\ senderId m = otherUserId U m)).
Proof.
  intros res. subst res. unfold getConversations, map_values.
  destruct (group_latest_spec U (latestMessages U d) (latestMessages_sorted U d) [])
    as (news & Heq & Hnews & Hnd & Hsorted & Hcover).
  rewrite Heq. simpl app in *. rewrite Forall_forall in Hnews.
  assert (Hkeys : map (partner U) (map snd news) = map fst news).
  { rewrite map_map. apply map_ext_in. intros kv Hkv.
    destruct (Hnews kv Hkv) as (_ & row & _ & Hk & Hv & _).
    unfold partner. now rewrite Hv, Hk. }
  assert (Hstored : forall row, In row (latestMessages U d) ->
                                In (fst row) (messages d)
                                /\ conversations_where U (fst row) = true).
  { intros [m ob] Hrow. apply latestMessages_In in Hrow.
    destruct Hrow as [Hj Hw]. apply leftJoin_In in Hj. now split. }
  assert (Hrow_of : forall m, In m (messages d) ->
                              conversations_where U m = true ->
                              exists ob, In (m, ob) (latestMessages U d)).
  { intros m Hm Hw.
    destruct (leftJoin_covers join_sender m (messages d) (users d) Hm) as [ob Hob].
    exists ob. apply latestMessages_In. now split. }
  rewrite Hkeys. split; [exact Hnd|]. split; [|split; [|split]].
  - intros p. split.
    + intros Hp. apply in_map_iff in Hp. destruct Hp as [kv [<- Hkv]].
      destruct (Hnews kv Hkv) as (_ & row & Hrow & Hk & _).
      destruct (Hstored row Hrow) as [Hm Hw].
      exists (fst row). now repeat split.
    + intros [m (Hm & Hw & <-)].
      destruct (Hrow_of m Hm Hw) as [ob Hob].
      exact (Hcover (m, ob) Hob).
  - apply Forall_forall. intros e He. apply in_map_iff in He.
    destruct He as [kv [<- Hkv]].
    destruct (Hnews kv Hkv) as (_ & row & Hrow & Hk & Hv & Hmax).
    destruct (Hstored row Hrow) as [Hm Hw].
    rewrite Hv. simpl. repeat split; auto.
    intros m Hm' Hw' Hp. destruct (Hrow_of m Hm' Hw') as [ob Hob].
    apply (Hmax (m, ob) Hob). simpl. rewrite Hp, Hk. unfold partner.
    reflexivity.
  - now apply StronglySorted_map.
  - apply otherUserId_other_party.
Qed.

Lemma getConversations_latest_witness :
  map (fun e => (partner "alice" e, message_id (mwu_message e)))
      (getConversations "alice" Sample.db_chat)
  = [("carol", 4); ("bob", 3)]
  /\ NoDup (map (partner "alice") (getConversations "alice" Sample.db_chat)).
Proof.
  split; [reflexivity|].
  exact (proj1 (getConversations_latest_per_partner "alice" Sample.db_chat)).
Defined.

Lemma conversation_where_spec A B m :
  conversation_where A B m = true <->
  (senderId m = A /\ receiverId m = B) \/ (senderId m = B /\ receiverId m = A).
Proof.
  unfold conversation_where.
  now rewrite orb_true_iff, !andb_true_iff, !String.eqb_eq.
Qed.

(** [users.id] being a key, a message joins with at most one user. *)
Lemma join_sender_at_most_one us m :
  NoDup (map user_id us) ->
  (List.length (filter (join_sender m) us) <= 1)%nat.
Proof.
  induction us as [|u us IH]; simpl; intros Hpk; [lia|].
  inversion Hpk as [|? ? Hnotin Hpk']; subst.
  specialize (IH Hpk'). unfold join_sender at 1.
  destruct (String.eqb (user_id u) (senderId m)) eqn:E; [|exact IH].
  apply String.eqb_eq in E. simpl.
  destruct (filter (join_sender m) us) as [|u' rest] eqn:F; [simpl; lia|].
  exfalso. apply Hnotin.
  assert (Hu' : In u' (filter (join_sender m) us)) by (rewrite F; now left).
  apply filter_In in Hu'. destruct Hu' as [Hin Hj].
  unfold join_sender in Hj. apply String.eqb_eq in Hj.
  rewrite E, <- Hj. now apply in_map.
Qed.

(** Under that key, the messages of the entries of [getConversation] are
    the messages of the pair, sorted on [createdAt]. *)
Lemma getConversation_messages A B d :
  NoDup (map user_id (users d)) ->
  map mwu_message (getConversation A B d)
  = orderBy_asc message_createdAt
      (filter (conversation_where A B) (messages d)).
Proof.
  intros Hpk. unfold getConversation. rewrite map_map.
  change (fun row => mwu_message (entry_of row))
    with (@fst Message (option User)).
  change (@row_createdAt) with (fun row : Message * option User =>
                                  message_createdAt (fst row)).
  rewrite (map_orderBy_asc fst message_createdAt).
  rewrite (map_filter_comp fst (conversation_where A B)).
  rewrite leftJoin_fst; [reflexivity|].
  intros m _. now apply join_sender_at_most_one.
Qed.

(** C4 (amended).  With [users.id] a key, [getConversation A B] returns
    exactly the stored messages whose sender and receiver are A and B in
    either direction, each once, in ascending [createdAt] order.  The
    query orders on [createdAt] alone: it applies no id tie-break, and
    the order it gives is determined only as far as the [createdAt]
    values differ (when they are pairwise distinct, the result is the one
    ascending arrangement of the messages).  In particular, for M1 (A to
    B), M2 (B to A), M3 (A to B) inserted in that order at strictly
    increasing times, into a store with no earlier message of the pair,
    it returns [M1; M2; M3]. *)
Theorem getConversation_pair_by_createdAt A B d :
  NoDup (map user_id (users d)) ->
  let res := map mwu_message (getConversation A B d) in
  let pair := filter (conversation_where A B) (messages d) in
  (forall m, In m pair <->
             In m (messages d)
             /\ ((senderId m = A /\ receiverId m = B)
                 \/ (senderId m = B /\ receiverId m = A)))
  /\ Permutation res pair
  /\ StronglySorted (asc message_createdAt) res
  /\ (forall l,
        Permutation l pair ->
        StronglySorted (fun x y => message_createdAt x < message_createdAt y) l ->
        res = l)
  /\ (forall t1 t2 t3 c1 c2 c3,
         user_exists d A = true ->
         user_exists d B = true ->
         pair = [] ->
         t1 < t2 < t3 ->
         exists M1 d1 M2 d2 M3 d3,
           sendMessage t1 (mkInsertMessage A B c1 None) d = (Returned M1, d1)
           /\ sendMessage t2 (mkInsertMessage B A c2 None) d1 = (Returned M2, d2)
           /\ sendMessage t3 (mkInsertMessage A B c3 None) d2 = (Returned M3, d3)
           /\ map mwu_message (getConversation A B d3) = [M1; M2; M3]).
Proof.
  intros Hpk res pair. subst res pair.
  rewrite (getConversation_messages A B d Hpk).
  split; [|split; [|split; [|split]]].
  - intros m. rewrite filter_In, conversation_where_spec. tauto.
  - apply orderBy_asc_perm.
  - apply orderBy_asc_sorted.
  - intros l HP Hs. apply (sorted_perm_unique message_createdAt).
    + rewrite orderBy_asc_perm. now symmetry.
    + apply orderBy_asc_sorted.
    + exact Hs.
  - intros t1 t2 t3 c1 c2 c3 HA HB Hnone Ht.
    pose proof (sendMessage_returns t1 (mkInsertMessage A B c1 None) d HA HB) as E1.
    cbn [im_senderId im_receiverId im_content im_isRead] in E1. cbv zeta in E1.
    set (M1 := mkMessage (messages_id_seq d + 1) A B c1 (Some false) t1) in *.
    set (d1 := set_messages (messages d ++ [M1]) (messages_id_seq d + 1) d) in *.
    pose proof (sendMessage_returns t2 (mkInsertMessage B A c2 None) d1 HB HA) as E2.
    cbn [im_senderId im_receiverId im_content im_isRead] in E2. cbv zeta in E2.
    set (M2 := mkMessage (messages_id_seq d1 + 1) B A c2 (Some false) t2) in *.
    set (d2 := set_messages (messages d1 ++ [M2]) (messages_id_seq d1 + 1) d1) in *.
    pose proof (sendMessage_returns t3 (mkInsertMessage A B c3 None) d2 HA HB) as E3.
    cbn [im_senderId im_receiverId im_content im_isRead] in E3. cbv zeta in E3.
    set (M3 := mkMessage (messages_id_seq d2 + 1) A B c3 (Some false) t3) in *.
    set (d3 := set_messages (messages d2 ++ [M3]) (messages_id_seq d2 + 1) d2) in *.
    exists M1, d1, M2, d2, M3, d3.
    split; [exact E1|]. split; [exact E2|]. split; [exact E3|].
    rewrite (getConversation_messages A B d3 Hpk).
    assert (Hw1 : conversation_where A B M1 = true)
      by (apply conversation_where_spec; left; now split).
    assert (Hw2 : conversation_where A B M2 = true)
      by (apply conversation_where_spec; right; now split).
    assert (Hw3 : conversation_where A B M3 = true)
      by (apply conversation_where_spec; left; now split).
    assert (Hf : filter (conversation_where A B) (messages d3) = [M1; M2; M3]).
    { simpl messages. rewrite !filter_app, Hnone. simpl.
      now rewrite Hw1, Hw2, Hw3. }
    rewrite Hf. apply (sorted_perm_unique message_createdAt).
    + apply orderBy_asc_perm.
    + apply orderBy_asc_sorted.
    + repeat constructor; simpl; lia.
Qed.

Lemma getConversation_pair_witness :
  exists M1 d1 M2 d2 M3 d3,
    sendMessage 10 (mkInsertMessage "alice" "bob" "one" None) Sample.db0
    = (Returned M1, d1)
    /\ sendMessage 20 (mkInsertMessage "bob" "alice" "two" None) d1
       = (Returned M2, d2)
    /\ sendMessage 30 (mkInsertMessage "alice" "bob" "three" None) d2
       = (Returned M3, d3)
    /\ map mwu_message (getConversation "alice" "bob" d3) = [M1; M2; M3].
Proof.
  assert (Hpk : NoDup (map user_id (users Sample.db0))).
  { simpl. repeat constructor; simpl; intuition discriminate. }
  destruct (getConversation_pair_by_createdAt "alice" "bob" Sample.db0 Hpk)
    as (_ & _ & _ & _ & H).
  apply (H 10 20 30 "one" "two" "three"); try reflexivity. lia.
Defined.

(** C4 as stated fails on ties.  Two messages of the pair have the same
    [createdAt], and the scan yields the one with the larger id first
    (as after an UPDATE of the other one).  The answer with the larger id
    first holds exactly the pair's messages and is sorted on [createdAt],
    so the query, which names no other key, admits it; it is the answer
    computed here, and it is not in ascending id order. *)
Lemma getConversation_tie_not_by_id :
  map mwu_message (getConversation "alice" "bob" Sample.db_tie)
  = [Sample.second; Sample.first]
  /\ message_createdAt Sample.second = message_createdAt Sample.first
  /\ message_id Sample.first < message_id Sample.second
  /\ Permutation [Sample.second; Sample.first]
                 (filter (conversation_where "alice" "bob")
                         (messages Sample.db_tie))
  /\ StronglySorted (asc message_createdAt) [Sample.second; Sample.first]
  /\ ~ StronglySorted created_then_id
         (map mwu_message (getConversation "alice" "bob" Sample.db_tie)).
Proof.
  split; [reflexivity|]. split; [reflexivity|]. split; [reflexivity|].
  split; [apply Permutation_refl|].
  split; [repeat constructor; unfold asc; simpl; lia|].
  intros H. change (map mwu_message (getConversation "alice" "bob" Sample.db_tie))
    with [Sample.second; Sample.first] in H.
  inversion H as [|? ? _ Hall]; subst.
  inversion Hall as [|? ? Hc _]; subst.
  unfold created_then_id in Hc. simpl in Hc. lia.
Qed.

(** * Further properties of the storage layer and the routes *)

(** ** Mutual likes *)

Lemma In_getMutualLikes A B d :
  In B (getMutualLikes A d) <-> has_like d A B = true /\ has_like d B A = true.
Proof.
  rewrite <- includes_spec, includes_getMutualLikes. apply andb_true_iff.
Qed.

(** X1.  [getMutualLikes] is symmetric: B is listed for A exactly when A
    is listed for B, which is exactly when both edges (A, B) and (B, A)
    are stored. *)
Theorem getMutualLikes_symmetric A B d :
  (In B (getMutualLikes A d) <-> In A (getMutualLikes B d))
  /\ (In B (getMutualLikes A d)
      <-> (exists l, In l (likes d) /\ likerId l = A /\ likedId l = B)
          /\ (exists l, In l (likes d) /\ likerId l = B /\ likedId l = A)).
Proof.
  split.
  - rewrite !In_getMutualLikes. tauto.
  - rewrite In_getMutualLikes. unfold has_like. rewrite !existsb_exists.
    split; intros [[l1 [H1 E1]] [l2 [H2 E2]]]; split;
      first [ exists l1; split; [exact H1|]; now apply like_is_spec
            | exists l2; split; [exact H2|]; now apply like_is_spec ].
Qed.

Lemma has_like_removeLike A B X Y d :
  has_like (snd (removeLike A B d)) X Y
  = has_like d X Y && negb (String.eqb X A && String.eqb Y B).
Proof.
  unfold has_like. simpl. apply Bool.eq_iff_eq_true.
  rewrite andb_true_iff, !existsb_exists, negb_true_iff. split.
  - intros [l [Hin Hl]]. apply filter_In in Hin. destruct Hin as [Hin Hn].
    split; [now exists l|]. apply like_is_spec in Hl. destruct Hl as [<- <-].
    apply negb_true_iff in Hn. exact Hn.
  - intros [[l [Hin Hl]] Hn]. exists l. split; [|exact Hl].
    apply filter_In. split; [exact Hin|]. apply negb_true_iff.
    apply like_is_spec in Hl. destruct Hl as [<- <-]. exact Hn.
Qed.

(** X2.  Unliking ends the match on both sides and touches no other
    pair: after [removeLike A B], B is no mutual like of A and A none of
    B, while for every other pair of users membership in
    [getMutualLikes] is as before. *)
Theorem removeLike_ends_match A B d :
  let d' := snd (removeLike A B d) in
  ~ In B (getMutualLikes A d')
  /\ ~ In A (getMutualLikes B d')
  /\ forall X Y,
       (X, Y) <> (A, B) -> (X, Y) <> (B, A) ->
       (In Y (getMutualLikes X d') <-> In Y (getMutualLikes X d)).
Proof.
  cbv zeta. split; [|split].
  - rewrite In_getMutualLikes, !has_like_removeLike, !String.eqb_refl. simpl.
    rewrite andb_false_r. intros [H _]. discriminate H.
  - rewrite In_getMutualLikes, !has_like_removeLike, !String.eqb_refl. simpl.
    rewrite andb_false_r. intros [_ H]. discriminate H.
  - intros X Y H1 H2. rewrite !In_getMutualLikes, !has_like_removeLike.
    assert (E1 : String.eqb X A && String.eqb Y B = false).
    { apply not_true_is_false. intros E. apply andb_true_iff in E.
      destruct E as [Ea Eb]. apply String.eqb_eq in Ea, Eb. congruence. }
    assert (E2 : String.eqb Y A && String.eqb X B = false).
    { apply not_true_is_false. intros E. apply andb_true_iff in E.
      destruct E as [Ea Eb]. apply String.eqb_eq in Ea, Eb. congruence. }
    rewrite E1, E2. simpl. now rewrite !andb_true_r.
Qed.

Lemma removeLike_ends_match_witness :
  let d1 := snd (post_likes 10 "alice" (Sample.like_body "bob") Sample.db0) in
  let d2 := snd (post_likes 20 "bob" (Sample.like_body "alice") d1) in
  let d3 := snd (removeLike "alice" "bob" d2) in
  getMutualLikes "alice" d2 = ["bob"]
  /\ ~ In "bob" (getMutualLikes "alice" d3)
  /\ ~ In "alice" (getMutualLikes "bob" d3).
Proof.
  cbv zeta. split; [reflexivity|].
  destruct (removeLike_ends_match "alice" "bob"
              (snd (post_likes 20 "bob" (Sample.like_body "alice")
                      (snd (post_likes 10 "alice" (Sample.like_body "bob")
                              Sample.db0)))))
    as (H1 & H2 & _).
  split; assumption.
Defined.

Lemma count_mutual_aux (A B : string) (L l0 : list Like) :
  count_occ string_dec
    (map likedId
       (filter (fun l => String.eqb (likerId l) A
                         && existsb (fun l2 => like_is (likedId l) (likerId l) l2) L)
               l0)) B
  = if existsb (like_is B A) L
    then List.length (filter (like_is A B) l0) else 0%nat.
Proof.
  set (P := fun l => String.eqb (likerId l) A
                     && existsb (fun l2 => like_is (likedId l) (likerId l) l2) L).
  induction l0 as [|l l0 IH]; cbn [filter map].
  - now destruct (existsb (like_is B A) L).
  - destruct (like_is A B l) eqn:E1.
    + apply like_is_spec in E1. destruct E1 as [EA EB].
      assert (EP : P l = existsb (like_is B A) L).
      { unfold P. now rewrite EA, EB, String.eqb_refl. }
      rewrite EP. destruct (existsb (like_is B A) L); cbn [map List.length].
      * rewrite count_occ_cons_eq by exact EB. now rewrite IH.
      * exact IH.
    + destruct (P l) eqn:EP; cbn [map]; [|exact IH].
      rewrite count_occ_cons_neq; [exact IH|].
      intros EB. unfold P in EP. apply andb_true_iff in EP.
      destruct EP as [EA _]. apply String.eqb_eq in EA.
      assert (like_is A B l = true) by (apply like_is_spec; now split).
      congruence.
Qed.

(** X3.  [getMutualLikes] lists a partner once per stored edge towards
    that partner: the number of times B occurs in [getMutualLikes A] is
    the number of stored edges (A, B) when an edge (B, A) exists, and
    zero otherwise.  Likes repeated by [addLike] so repeat the match. *)
Theorem getMutualLikes_multiplicity A B d :
  count_occ string_dec (getMutualLikes A d) B
  = if has_like d B A then count_likes d A B else 0%nat.
Proof.
  unfold getMutualLikes, has_like, count_likes.
  exact (count_mutual_aux A B (likes d) (likes d)).
Qed.

(** X4.  [getLikes U] returns exactly the stored likes whose liked user
    is U (the likes U received, not the ones U gave), each once, newest
    first. *)
Theorem getLikes_received_newest_first U d :
  Permutation (getLikes U d)
              (filter (fun l => String.eqb (likedId l) U) (likes d))
  /\ (forall l, In l (getLikes U d) <-> In l (likes d) /\ likedId l = U)
  /\ StronglySorted (fun x y => like_createdAt y <= like_createdAt x)
                    (getLikes U d).
Proof.
  unfold getLikes. split; [apply orderBy_desc_perm|]. split.
  - intros l. rewrite orderBy_desc_In, filter_In, String.eqb_eq. tauto.
  - apply (orderBy_desc_sorted like_createdAt).
Qed.

(** ** The send-message route *)

Lemma z_string_returned v s : z_string v = Returned s -> v = Some (JString s).
Proof. destruct v as [[]|]; simpl; intros H; inversion H; reflexivity. Qed.

(** Everything a 200 answer of [POST /api/messages] tells. *)
Lemma post_messages_200_inv now cs S body d m sent d' :
  post_messages now cs S body d = (Json200 m, sent, d') ->
  exists i,
    obj_get "receiverId" body = Some (JString (receiverId m))
    /\ obj_get "content" body = Some (JString (content m))
    /\ z_boolean_nullable_optional (obj_get "isRead" body) = Returned i
    /\ user_exists d S = true /\ user_exists d (receiverId m) = true
    /\ m = mkMessage (messages_id_seq d + 1) S (receiverId m) (content m)
                     (stored_isRead i) now
    /\ sent = map (fun c => mkPush (ws_id c) m)
                  (filter (addressed S (receiverId m)) cs)
    /\ d' = set_messages (messages d ++ [m]) (messages_id_seq d + 1) d.
Proof.
  unfold post_messages, post_messages_body, insertMessageSchema_parse, lift.
  unfold obj_set. simpl obj_get. simpl z_string.
  destruct (z_string (obj_get "receiverId" body)) as [R|] eqn:ER;
    [|unfold bind; simpl; discriminate].
  destruct (z_string (obj_get "content" body)) as [c|] eqn:Ec;
    [|unfold bind; simpl; discriminate].
  destruct (z_boolean_nullable_optional (obj_get "isRead" body)) as [i|] eqn:Ei;
    [|unfold bind; simpl; discriminate].
  apply z_string_returned in ER, Ec.
  unfold bind at 1.
  destruct (user_exists d S && user_exists d R) eqn:Hfk.
  - apply andb_true_iff in Hfk. destruct Hfk as [HS HR].
    rewrite (bind_returned _ _ _ _ _
               (sendMessage_returns now (mkInsertMessage S R c i) d HS HR)).
    unfold ret. cbn [im_senderId im_receiverId im_content im_isRead
                     message_id senderId receiverId content isRead
                     message_createdAt].
    intros H. inversion H; subst. exists i. cbn. now repeat split.
  - rewrite (bind_thrown _ _ _ _ _
               (sendMessage_throws now (mkInsertMessage S R c i) d Hfk)).
    discriminate.
Qed.



(** X6.  The frames of a successful send go to exactly the open sockets
    bound to the sender or to the receiver, and each carries the stored
    message: no socket of another user, no anonymous socket and no socket
    that is not open gets one. *)
Theorem post_messages_broadcast now cs S body d m sent d' :
  post_messages now cs S body d = (Json200 m, sent, d') ->
  (forall p, In p sent ->
             push_data p = m
             /\ exists c, In c cs /\ ws_id c = push_to p
                          /\ readyState c = OPEN
                          /\ (ws_userId c = Some (receiverId m)
                              \/ ws_userId c = Some S))
  /\ (forall c, In c cs -> readyState c = OPEN ->
                ws_userId c = Some (receiverId m) \/ ws_userId c = Some S ->
                In (mkPush (ws_id c) m) sent)
  /\ List.length sent = List.length (filter (addressed S (receiverId m)) cs).
Proof.
  intros E.
  destruct (post_messages_200_inv _ _ _ _ _ _ _ _ E)
    as (i & _ & _ & _ & _ & _ & _ & Hsent & _).
  rewrite Hsent. split; [|split].
  - intros p Hp. apply in_map_iff in Hp. destruct Hp as [c [<- Hc]].
    apply filter_In in Hc. destruct Hc as [Hin Ha].
    split; [reflexivity|]. exists c. split; [exact Hin|]. split; [reflexivity|].
    unfold addressed, is_open, client_is in Ha.
    apply andb_true_iff in Ha. destruct Ha as [Ho Hu].
    split; [now destruct (readyState c)|].
    apply orb_true_iff in Hu.
    destruct (ws_userId c) as [u|]; [|destruct Hu; discriminate].
    destruct Hu as [Hu|Hu]; apply String.eqb_eq in Hu; subst; auto.
  - intros c Hin Ho Hu. apply in_map_iff. exists c. split; [reflexivity|].
    apply filter_In. split; [exact Hin|].
    unfold addressed, is_open, client_is. rewrite Ho. simpl.
    destruct Hu as [-> | ->]; rewrite String.eqb_refl; simpl;
      [reflexivity | now rewrite orb_true_r].
  - apply length_map.
Qed.

Lemma post_messages_broadcast_witness :
  let cs := clients (ws_connection 3 Sample.two_sockets) in
  exists m d',
    post_messages 10 cs "bob" (Sample.message_body "alice" "hi") Sample.db0
    = (Json200 m, [mkPush 1 m; mkPush 2 m], d')
    /\ List.length (filter (addressed "bob" (receiverId m)) cs) = 2%nat.
Proof.
  cbv zeta.
  assert (E : exists m d',
             post_messages 10 (clients (ws_connection 3 Sample.two_sockets))
                           "bob" (Sample.message_body "alice" "hi") Sample.db0
             = (Json200 m, [mkPush 1 m; mkPush 2 m], d'))
    by (do 2 eexists; vm_compute; reflexivity).
  destruct E as (m & d' & E). exists m, d'. split; [exact E|].
  destruct (post_messages_broadcast _ _ _ _ _ _ _ _ E) as (_ & _ & H).
  now rewrite <- H.
Defined.

(** ** Message ids and read flags *)

Lemma map_id_mark_row messageId userId ms :
  map message_id (map (mark_row messageId userId) ms) = map message_id ms.
Proof.
  rewrite map_map. apply map_ext. intros m. unfold mark_row.
  now destruct ((message_id m =? messageId) && String.eqb (receiverId m) userId).
Qed.

(** X7.  The primary key of [messages] is an invariant of the two
    operations that write the table: after [sendMessage] and after
    [markMessageAsRead] the stored ids are still pairwise distinct and
    bounded by the sequence, and the id [sendMessage] returns is one no
    stored message had. *)
Theorem messages_pk_invariant now message messageId userId d :
  messages_pk d ->
  messages_pk (snd (sendMessage now message d))
  /\ messages_pk (snd (markMessageAsRead messageId userId d))
  /\ (forall m d', sendMessage now message d = (Returned m, d') ->
                   ~ In (message_id m) (map message_id (messages d))).
Proof.
  intros [Hnd Hle]. rewrite Forall_forall in Hle.
  assert (Hfresh : ~ In (messages_id_seq d + 1) (map message_id (messages d))).
  { intros Hin. apply in_map_iff in Hin. destruct Hin as [m0 [E Hm0]].
    specialize (Hle m0 Hm0). lia. }
  split; [|split].
  - unfold sendMessage.
    destruct (user_exists d (im_senderId message)
              && user_exists d (im_receiverId message)); cbn [snd].
    + split; cbn [messages messages_id_seq set_messages].
      * rewrite map_app. cbn [map message_id].
        apply NoDup_app_remove_l with (l := []). simpl.
        apply (Permutation_NoDup (l := (messages_id_seq d + 1)
                                         :: map message_id (messages d))).
        { apply Permutation_cons_append. }
        now constructor.
      * apply Forall_app. split.
        { apply Forall_forall. intros m0 Hm0. specialize (Hle m0 Hm0). lia. }
        constructor; [cbn; lia | constructor].
    + split; cbn [messages messages_id_seq set_messages]; [exact Hnd|].
      apply Forall_forall. intros m0 Hm0. specialize (Hle m0 Hm0). lia.
  - split; cbn [snd markMessageAsRead messages messages_id_seq set_messages].
    + now rewrite map_id_mark_row.
    + apply Forall_forall. intros m0 Hm0. apply in_map_iff in Hm0.
      destruct Hm0 as [m1 [<- Hm1]]. specialize (Hle m1 Hm1).
      unfold mark_row.
      now destruct ((message_id m1 =? messageId)
                    && String.eqb (receiverId m1) userId).
  - intros m d' E. unfold sendMessage in E.
    destruct (user_exists d (im_senderId message)
              && user_exists d (im_receiverId message)); [|discriminate].
    inversion E; subst. exact Hfresh.
Qed.

Lemma messages_pk_invariant_witness :
  messages_pk Sample.db_chat
  /\ messages_pk
       (snd (sendMessage 50 (mkInsertMessage "bob" "carol" "yo" None)
                         Sample.db_chat)).
Proof.
  assert (H : messages_pk Sample.db_chat).
  { split; simpl.
    - repeat constructor; simpl; intuition discriminate.
    - repeat constructor; simpl; lia. }
  split; [exact H|].
  exact (proj1 (messages_pk_invariant
                  50 (mkInsertMessage "bob" "carol" "yo" None) 0 "bob"
                  Sample.db_chat H)).
Defined.

Lemma mark_row_idempotent messageId userId m :
  mark_row messageId userId (mark_row messageId userId m)
  = mark_row messageId userId m.
Proof.
  unfold mark_row at 2.
  destruct ((message_id m =? messageId) && String.eqb (receiverId m) userId)
    eqn:E; [|unfold mark_row; now rewrite E].
  unfold mark_row. cbn [message_id receiverId]. now rewrite E.
Qed.

(** X8.  [markMessageAsRead] only ever raises read flags: up to the
    order of the rows, the messages keep every field other than [isRead];
    every message that was already read is kept as it was and no flag is
    cleared; the other tables are left alone; and doing it twice leaves
    the same messages as doing it once. *)
Theorem markMessageAsRead_only_raises_flags messageId userId d :
  let d' := snd (markMessageAsRead messageId userId d) in
  Permutation (map unread_view (messages d')) (map unread_view (messages d))
  /\ (forall m, In m (messages d) -> isRead m = Some true -> In m (messages d'))
  /\ (forall m', In m' (messages d') ->
                 In m' (messages d) \/ isRead m' = Some true)
  /\ users d' = users d /\ profiles d' = profiles d
  /\ likes d' = likes d /\ blocks d' = blocks d
  /\ Permutation (messages (snd (markMessageAsRead messageId userId d')))
                 (messages d').
Proof.
  cbv zeta. cbn [snd markMessageAsRead messages set_messages users profiles
                 likes blocks messages_id_seq].
  split; [|split; [|split]].
  - rewrite map_map.
    assert (E : map (fun m => unread_view (mark_row messageId userId m))
                    (messages d)
                = map unread_view (messages d)); [|now rewrite E].
    apply map_ext. intros m. unfold mark_row, unread_view.
    now destruct ((message_id m =? messageId) && String.eqb (receiverId m) userId).
  - intros m Hin Hread. apply in_map_iff. exists m. split; [|exact Hin].
    unfold mark_row.
    destruct ((message_id m =? messageId) && String.eqb (receiverId m) userId);
      [|reflexivity].
    destruct m as [i s r c rd t]. cbn in *. now rewrite Hread.
  - intros m' Hin. apply in_map_iff in Hin. destruct Hin as [m [<- Hin]].
    unfold mark_row.
    destruct ((message_id m =? messageId) && String.eqb (receiverId m) userId);
      [right; reflexivity | left; exact Hin].
  - repeat split.
    assert (E : map (mark_row messageId userId)
                    (map (mark_row messageId userId) (messages d))
                = map (mark_row messageId userId) (messages d));
      [|now rewrite E].
    rewrite map_map. apply map_ext. intros m. apply mark_row_idempotent.
Qed.

(** X9.  A conversation is the same from both ends:
    [getConversation A B] and [getConversation B A] return the same
    list. *)
Theorem getConversation_symmetric A B d :
  getConversation A B d = getConversation B A d.
Proof.
  unfold getConversation. do 2 f_equal. apply filter_ext. intros row.
  unfold conversation_where. apply orb_comm.
Qed.

(** ** A new message in the conversation list *)

Section NewestLast.
Context {A : Type} (key : A -> Z).

Lemma orderBy_desc_sorted_id l :
  StronglySorted (desc key) l -> orderBy_desc key l = l.
Proof.
  induction l as [|x l IH]; intros Hs; [reflexivity|].
  inversion Hs as [|? ? Hs' Hall]; subst.
  simpl. rewrite (IH Hs'). destruct l as [|y l]; [reflexivity|].
  simpl. inversion Hall as [|? ? Hxy _]; subst.
  unfold desc in Hxy. apply Z.leb_le in Hxy. now rewrite Hxy.
Qed.

Lemma insert_desc_past a rs l :
  (forall y, In y rs -> key a < key y) ->
  insert_desc key a (rs ++ l) = rs ++ insert_desc key a l.
Proof.
  induction rs as [|r rs IH]; intros H; [reflexivity|].
  simpl. assert (E : (key r <=? key a) = false).
  { apply Z.leb_gt. apply H. now left. }
  rewrite E, IH; [reflexivity|]. intros y Hy. apply H. now right.
Qed.

(** Rows newer than all the others come first, in their own order. *)
Lemma orderBy_desc_newest_last k rs l :
  (forall y, In y rs -> key y = k) ->
  (forall a, In a l -> key a < k) ->
  orderBy_desc key (l ++ rs) = rs ++ orderBy_desc key l.
Proof.
  intros Hrs. induction l as [|a l IH]; intros Hl.
  - simpl. rewrite app_nil_r. apply orderBy_desc_sorted_id.
    clear -Hrs. induction rs as [|r rs IH]; constructor.
    + apply IH. intros y Hy. apply Hrs. now right.
    + apply Forall_forall. intros y Hy. unfold desc.
      rewrite (Hrs r (or_introl eq_refl)), (Hrs y (or_intror Hy)). lia.
  - simpl. rewrite IH by (intros; apply Hl; now right).
    apply insert_desc_past. intros y Hy.
    rewrite (Hrs y Hy). apply Hl. now left.
Qed.
End NewestLast.

Lemma leftJoin_app {A B} (on : A -> B -> bool) l1 l2 r :
  leftJoin on (l1 ++ l2) r = leftJoin on l1 r ++ leftJoin on l2 r.
Proof. unfold leftJoin. apply flat_map_app. Qed.

Lemma group_latest_head U row rest :
  StronglySorted (desc row_createdAt) (row :: rest) ->
  hd_error (map_values (group_latest U (row :: rest) [])) = Some (entry_of row).
Proof.
  intros Hs. inversion Hs as [|? ? Hs' _]; subst.
  cbn [group_latest map_has existsb app].
  destruct (group_latest_spec U rest Hs' [(otherUserId U (fst row), entry_of row)])
    as [news [-> _]].
  reflexivity.
Qed.

(** The conversation list of a user right after a message that involves
    them and is newer than every stored one has been inserted. *)
Lemma getConversations_after_insert U m u0 us d seq :
  filter (join_sender m) (users d) = u0 :: us ->
  conversations_where U m = true ->
  (forall m0, In m0 (messages d) -> message_createdAt m0 < message_createdAt m) ->
  hd_error (getConversations U (set_messages (messages d ++ [m]) seq d))
  = Some (mkMessageWithUsers m (Some u0) (Some u0)).
Proof.
  intros Hj Hw Hnew.
  unfold getConversations, latestMessages.
  cbn [messages users set_messages].
  rewrite leftJoin_app, filter_app.
  set (rows := map (fun b => (m, Some b)) (u0 :: us)).
  assert (Em : filter (fun row => conversations_where U (fst row))
                      (leftJoin join_sender [m] (users d)) = rows).
  { unfold leftJoin. cbn [flat_map]. rewrite Hj, app_nil_r.
    apply filter_all_true. intros row Hrow. apply in_map_iff in Hrow.
    destruct Hrow as [b [<- _]]. exact Hw. }
  rewrite Em.
  rewrite (orderBy_desc_newest_last row_createdAt (message_createdAt m)).
  - assert (Hs : StronglySorted (desc row_createdAt)
                   (rows ++ orderBy_desc row_createdAt
                      (filter (fun row => conversations_where U (fst row))
                              (leftJoin join_sender (messages d) (users d))))).
    { rewrite <- (orderBy_desc_newest_last row_createdAt (message_createdAt m)).
      - apply orderBy_desc_sorted.
      - intros y Hy. apply in_map_iff in Hy. now destruct Hy as [b [<- _]].
      - intros [m0 ob] Ha. apply filter_In in Ha. destruct Ha as [Ha _].
        apply leftJoin_In in Ha. apply Hnew. tauto. }
    unfold rows in *. cbn [map app] in *.
    exact (group_latest_head U _ _ Hs).
  - intros y Hy. apply in_map_iff in Hy. now destruct Hy as [b [<- _]].
  - intros [m0 ob] Ha. apply filter_In in Ha. destruct Ha as [Ha _].
    apply leftJoin_In in Ha. apply Hnew. tauto.
Qed.

(** X10.  A message sent between stored users at a time later than every
    stored message becomes the first entry of the conversation list of
    its sender and of its receiver. *)
Theorem sendMessage_heads_conversations now S R c i d :
  user_exists d S = true ->
  user_exists d R = true ->
  (forall m0, In m0 (messages d) -> message_createdAt m0 < now) ->
  exists m d' u,
    sendMessage now (mkInsertMessage S R c i) d = (Returned m, d')
    /\ senderId m = S /\ receiverId m = R /\ content m = c
    /\ user_id u = S
    /\ hd_error (getConversations S d')
       = Some (mkMessageWithUsers m (Some u) (Some u))
    /\ hd_error (getConversations R d')
       = Some (mkMessageWithUsers m (Some u) (Some u)).
Proof.
  intros HS HR Hnew.
  pose proof (sendMessage_returns now (mkInsertMessage S R c i) d HS HR) as E.
  cbn [im_senderId im_receiverId im_content im_isRead] in E. cbv zeta in E.
  set (m := mkMessage (messages_id_seq d + 1) S R c
                      (match i with Some v => v | None => Some false end) now) in *.
  destruct (filter (join_sender m) (users d)) as [|u0 us] eqn:Hj.
  { apply join_sender_none in Hj. cbn in Hj. congruence. }
  assert (Hu0 : user_id u0 = S).
  { assert (Hin : In u0 (filter (join_sender m) (users d)))
      by (rewrite Hj; now left).
    apply filter_In in Hin. destruct Hin as [_ Hin].
    unfold join_sender in Hin. now apply String.eqb_eq in Hin. }
  exists m, (set_messages (messages d ++ [m]) (messages_id_seq d + 1) d), u0.
  split; [exact E|]. repeat split; try exact Hu0.
  - apply getConversations_after_insert with us; auto.
    apply conversations_where_spec. now left.
  - apply getConversations_after_insert with us; auto.
    apply conversations_where_spec. now right.
Qed.

Lemma sendMessage_heads_conversations_witness :
  exists m d' u,
    sendMessage 50 (mkInsertMessage "bob" "carol" "yo" None) Sample.db_chat
    = (Returned m, d')
    /\ user_id u = "bob"
    /\ hd_error (getConversations "carol" d')
       = Some (mkMessageWithUsers m (Some u) (Some u)).
Proof.
  destruct (sendMessage_heads_conversations 50 "bob" "carol" "yo" None
              Sample.db_chat eq_refl eq_refl)
    as (m & d' & u & E & _ & _ & _ & Hu & _ & H).
  - simpl. intros m0 Hm0.
    repeat (destruct Hm0 as [<-|Hm0]; [simpl; lia|]). contradiction.
  - exists m, d', u. split; [exact E|]. split; [exact Hu | exact H].
Defined.

(** ** Blocks *)




(** X12.  [removeBlock A B] deletes every block of B by A and nothing
    else: A's block list loses exactly the entries for B, every other
    user's list is unchanged (a block of A by B stays), and the call
    returns normally whether or not such a block existed. *)
Theorem removeBlock_deletes_pair A B d :
  let d' := snd (removeBlock A B d) in
  fst (removeBlock A B d) = Returned tt
  /\ has_block d' A B = false
  /\ getBlocks A d'
     = filter (fun b => negb (String.eqb (blockedId b) B)) (getBlocks A d)
  /\ (forall X, X <> A -> getBlocks X d' = getBlocks X d)
  /\ (has_block d A B = false -> blocks d' = blocks d).
Proof.
  cbv zeta. cbn [fst snd removeBlock]. split; [reflexivity|].
  split; [|split; [|split]].
  - unfold has_block. cbn [blocks set_blocks]. apply not_true_is_false.
    intros H. apply existsb_exists in H. destruct H as [b [Hin Hb]].
    apply filter_In in Hin. destruct Hin as [_ Hn]. now rewrite Hb in Hn.
  - unfold getBlocks. cbn [blocks set_blocks].
    induction (blocks d) as [|b bs IH]; [reflexivity|].
    cbn [filter]. unfold block_is at 1.
    destruct (String.eqb (blockerId b) A) eqn:EA; cbn [andb negb filter].
    + destruct (String.eqb (blockedId b) B); cbn [negb filter];
        rewrite ?EA; now rewrite IH.
    + rewrite EA. exact IH.
  - intros X HX. unfold getBlocks. cbn [blocks set_blocks].
    induction (blocks d) as [|b bs IH]; [reflexivity|].
    cbn [filter]. unfold block_is at 1.
    destruct (String.eqb (blockerId b) X) eqn:EX.
    + apply String.eqb_eq in EX.
      assert (String.eqb (blockerId b) A = false) as ->
          by (apply String.eqb_neq; congruence).
      cbn [andb negb filter]. apply String.eqb_eq in EX.
      rewrite EX. now rewrite IH.
    + destruct (String.eqb (blockerId b) A && String.eqb (blockedId b) B);
        cbn [negb filter]; rewrite ?EX; exact IH.
  - intros Hno. cbn [blocks set_blocks]. apply filter_all_true.
    intros b Hin. apply negb_true_iff. apply not_true_is_false. intros Hb.
    unfold has_block in Hno.
    assert (existsb (block_is A B) (blocks d) = true)
      by (apply existsb_exists; now exists b).
    congruence.
Qed.

Lemma removeBlock_deletes_pair_witness :
  getBlocks "alice" Sample.db_blocked = [mkBlock 1 "alice" "bob" 5]
  /\ getBlocks "alice" (snd (removeBlock "alice" "bob" Sample.db_blocked)) = []
  /\ blocks (snd (removeBlock "bob" "alice" Sample.db_blocked))
     = blocks Sample.db_blocked.
Proof.
  split; [reflexivity|].
  destruct (removeBlock_deletes_pair "alice" "bob" Sample.db_blocked)
    as (_ & _ & H & _).
  destruct (removeBlock_deletes_pair "bob" "alice" Sample.db_blocked)
    as (_ & _ & _ & _ & Hsame).
  split; [rewrite H; reflexivity | apply Hsame; reflexivity].
Defined.

(** ** Presence writes and the socket life cycle *)

Lemma status_row_other U b now p :
  profile_userId p <> U -> status_row U b now p = p.
Proof.
  intros H. unfold status_row. apply String.eqb_neq in H. now rewrite H.
Qed.

Lemma profiles_of_other U V b now d :
  V <> U ->
  profiles_of V (snd (updateOnlineStatus now U b d)) = profiles_of V d.
Proof.
  intros HV. unfold profiles_of. cbn [snd updateOnlineStatus profiles set_profiles].
  induction (profiles d) as [|p ps IH]; [reflexivity|].
  cbn [map filter]. rewrite status_row_userId.
  destruct (String.eqb (profile_userId p) V) eqn:E; [|exact IH].
  apply String.eqb_eq in E. rewrite status_row_other by congruence.
  now rewrite IH.
Qed.

Lemma persisted_online_other U V b now d :
  V <> U ->
  persisted_online V (snd (updateOnlineStatus now U b d)) = persisted_online V d.
Proof. intros HV. unfold persisted_online. now rewrite profiles_of_other. Qed.

Lemma persisted_online_after_true U now d :
  profiles_of U d <> [] ->
  persisted_online U (snd (updateOnlineStatus now U true d)) = true.
Proof.
  intros Hne. unfold persisted_online.
  pose proof (profiles_of_stamped U true now d) as Hall.
  rewrite profiles_of_updateOnlineStatus in *.
  destruct (profiles_of U d) as [|p ps]; [contradiction|].
  cbn [map existsb] in *. inversion Hall as [|? ? [Hp _] _]; subst.
  now rewrite Hp.
Qed.




Lemma find_has_id_exists id cs ws :
  find (has_id id) cs = Some ws -> existsb (has_id id) cs = true.
Proof.
  intros H. apply existsb_exists. exists ws.
  apply find_some in H. exact H.
Qed.

Lemma find_after_auth id U cs ws :
  find (has_id id) cs = Some ws ->
  find (has_id id)
       (map (fun c => if has_id id c
                      then mkWebSocket (ws_id c) (readyState c) (Some U)
                      else c) cs)
  = Some (mkWebSocket (ws_id ws) (readyState ws) (Some U)).
Proof.
  induction cs as [|c cs IH]; cbn [find map]; [discriminate|].
  destruct (has_id id c) eqn:E.
  - intros H. inversion H; subst. unfold has_id in *. cbn [ws_id]. now rewrite E.
  - rewrite E. exact IH.
Qed.

Lemma ws_message_auth now id U ws s :
  find (has_id id) (clients s) = Some ws ->
  db (ws_message now id (AuthFrame U) s)
  = snd (updateOnlineStatus now U true (db s))
  /\ find (has_id id) (clients (ws_message now id (AuthFrame U) s))
     = Some (mkWebSocket (ws_id ws) (readyState ws) (Some U)).
Proof.
  intros Hf. unfold ws_message. rewrite (find_has_id_exists _ _ _ Hf).
  cbn [db clients]. split; [reflexivity | now apply find_after_auth].
Qed.

Lemma ws_message_auth_clients now id U ws s :
  find (has_id id) (clients s) = Some ws ->
  clients (ws_message now id (AuthFrame U) s)
  = map (fun c => if has_id id c
                  then mkWebSocket (ws_id c) (readyState c) (Some U)
                  else c)
        (clients s).
Proof.
  intros Hf. unfold ws_message. now rewrite (find_has_id_exists _ _ _ Hf).
Qed.

(** X14.  A socket is bound to the last user it authenticated as, and
    only that user is written offline when it closes.  Let a socket
    authenticate as U, who has a profile, then as another user V whose id
    is not the empty string, and then close, no other socket being bound
    to U: U is left persisted online although no socket bound to U
    remains, and V is persisted offline. *)
Theorem ws_reauth_leaves_first_user_online c ws U V t1 t2 t3 s :
  find (has_id c) (clients s) = Some ws ->
  Forall (fun w => ws_id w = c \/ ws_userId w <> Some U) (clients s) ->
  U <> V ->
  V <> EmptyString ->
  profiles_of U (db s) <> [] ->
  let s1 := ws_message t1 c (AuthFrame U) s in
  let s2 := ws_message t2 c (AuthFrame V) s1 in
  let s3 := ws_close t3 c s2 in
  persisted_online U (db s1) = true
  /\ persisted_online U (db s3) = true
  /\ persisted_online V (db s3) = false
  /\ find (has_id c) (clients s3) = None
  /\ Forall (fun w => ws_userId w <> Some U) (clients s3).
Proof.
  intros Hf Honly HUV HV HP s1 s2 s3.
  destruct (ws_message_auth t1 c U ws s Hf) as [Hd1 Hf1]. fold s1 in Hd1, Hf1.
  destruct (ws_message_auth t2 c V _ s1 Hf1) as [Hd2 Hf2]. fold s2 in Hd2, Hf2.
  cbn [ws_id readyState] in Hf2.
  pose proof (ws_message_auth_clients t1 c U ws s Hf) as Hc1. fold s1 in Hc1.
  pose proof (ws_message_auth_clients t2 c V _ s1 Hf1) as Hc2. fold s2 in Hc2.
  assert (E3 : s3 = mkServer (snd (updateOnlineStatus t3 V false (db s2)))
                             (filter (fun w => negb (has_id c w)) (clients s2)))
    by (eapply ws_close_authenticated; [exact Hf2 | reflexivity | exact HV]).
  assert (H1 : persisted_online U (db s1) = true)
    by (rewrite Hd1; now apply persisted_online_after_true).
  assert (Hnone : find (has_id c) (clients s3) = None).
  { rewrite E3. cbn [clients].
    destruct (find (has_id c) (filter (fun w => negb (has_id c w)) (clients s2)))
      as [w|] eqn:E; [|reflexivity].
    apply find_some in E. destruct E as [Hin Hw].
    apply filter_In in Hin. destruct Hin as [_ Hn]. now rewrite Hw in Hn. }
  split; [exact H1|]. split; [|split; [|split; [exact Hnone|]]].
  - rewrite E3. cbn [db]. rewrite persisted_online_other by exact HUV.
    rewrite Hd2, persisted_online_other by exact HUV. exact H1.
  - rewrite E3. cbn [db]. apply persisted_offline_after_false.
  - rewrite E3. cbn [clients]. rewrite Hc2, Hc1.
    rewrite Forall_forall in Honly. apply Forall_forall. intros w Hw.
    apply filter_In in Hw. destruct Hw as [Hw Hn].
    apply in_map_iff in Hw. destruct Hw as [w1 [E1 Hw1]].
    apply in_map_iff in Hw1. destruct Hw1 as [w0 [E0 Hw0]].
    apply negb_true_iff in Hn.
    destruct (has_id c w0) eqn:H0.
    + exfalso. rewrite <- E1, <- E0 in Hn.
      unfold has_id in *. cbn [ws_id] in *. rewrite H0 in *. cbn [ws_id] in Hn.
      rewrite H0 in Hn. cbn [ws_id] in Hn. congruence.
    + subst w1. rewrite H0 in E1. subst w.
      destruct (Honly w0 Hw0) as [Hid|Hu]; [|exact Hu].
      unfold has_id in H0. apply Nat.eqb_neq in H0. contradiction.
Qed.

Lemma ws_reauth_witness :
  let s0 := ws_connection 7 (mkServer Sample.db0 []) in
  let s1 := ws_message 1 7 (AuthFrame "alice") s0 in
  let s2 := ws_message 2 7 (AuthFrame "bob") s1 in
  let s3 := ws_close 3 7 s2 in
  clients s3 = [] /\ persisted_online "alice" (db s3) = true.
Proof.
  cbv zeta. split; [reflexivity|].
  assert (H0 : Forall (fun w => ws_id w = 7%nat \/ ws_userId w <> Some "alice")
                      (clients (ws_connection 7 (mkServer Sample.db0 []))))
    by (repeat constructor).
  assert (H1 : "alice" <> "bob") by discriminate.
  assert (H2 : "bob" <> EmptyString) by discriminate.
  assert (H3 : profiles_of "alice" (db (ws_connection 7 (mkServer Sample.db0 [])))
               <> []) by discriminate.
  exact (proj1 (proj2 (ws_reauth_leaves_first_user_online
                         7%nat (mkWebSocket 7 OPEN None) "alice" "bob" 1 2 3
                         (ws_connection 7 (mkServer Sample.db0 []))
                         eq_refl H0 H1 H2 H3))).
Defined.

Lemma find_fresh_socket c cs w :
  existsb (has_id c) cs = false ->
  has_id c w = true ->
  find (has_id c) (cs ++ [w]) = Some w.
Proof.
  intros Hfresh Hw. induction cs as [|x cs IH]; cbn [app find].
  - now rewrite Hw.
  - cbn [existsb] in Hfresh. apply orb_false_iff in Hfresh.
    destruct Hfresh as [Hx Hcs]. rewrite Hx. now apply IH.
Qed.

Lemma sockets_without_id c (f : WebSocket -> WebSocket) cs :
  existsb (has_id c) cs = false ->
  map (fun x => if has_id c x then f x else x) cs = cs
  /\ filter (fun x => negb (has_id c x)) cs = cs.
Proof.
  induction cs as [|x cs IH]; intros H; [now split|].
  cbn [existsb] in H. apply orb_false_iff in H. destruct H as [Hx Hcs].
  destruct (IH Hcs) as [IH1 IH2]. cbn [map filter]. rewrite Hx. cbn [negb].
  now rewrite IH1, IH2.
Qed.

(** X15.  One socket, from connection to close.  Connecting writes
    nothing, and neither does closing a socket that never authenticated.
    For a user U with a profile and an id that is not the empty string,
    the auth frame on a fresh socket sets U
    persisted online with [lastSeen] the time of the frame; the close then
    sets U persisted offline with [lastSeen] the time of the close and
    removes the socket, so that the socket list is what it was before the
    connection; no other user's profile rows change. *)
Theorem ws_single_socket_life_cycle c U t1 t2 s :
  existsb (has_id c) (clients s) = false ->
  U <> EmptyString ->
  profiles_of U (db s) <> [] ->
  let s1 := ws_connection c s in
  let s2 := ws_message t1 c (AuthFrame U) s1 in
  let s3 := ws_close t2 c s2 in
  db s1 = db s
  /\ ws_close t1 c s1 = s
  /\ persisted_online U (db s2) = true
  /\ Forall (fun p => profile_lastSeen p = Some t1) (profiles_of U (db s2))
  /\ persisted_online U (db s3) = false
  /\ Forall (fun p => profile_lastSeen p = Some t2) (profiles_of U (db s3))
  /\ clients s3 = clients s
  /\ (forall V, V <> U -> profiles_of V (db s3) = profiles_of V (db s)).
Proof.
  intros Hfresh HU HP s1 s2 s3.
  set (w := mkWebSocket c OPEN None).
  assert (Hw : has_id c w = true) by (unfold has_id; cbn; apply Nat.eqb_refl).
  assert (Hf1 : find (has_id c) (clients s1) = Some w)
    by (now apply find_fresh_socket).
  destruct (ws_message_auth t1 c U w s1 Hf1) as [Hd2 Hf2].
  fold s2 in Hd2, Hf2. cbn [ws_id readyState w] in Hf2.
  assert (E3 : s3 = mkServer (snd (updateOnlineStatus t2 U false (db s2)))
                             (filter (fun x => negb (has_id c x)) (clients s2)))
    by (eapply ws_close_authenticated; [exact Hf2 | reflexivity | exact HU]).
  destruct (sockets_without_id
              c (fun x => mkWebSocket (ws_id x) (readyState x) (Some U))
              (clients s) Hfresh) as [Hmap Hfilter].
  assert (Hc2 : clients s2 = clients s ++ [mkWebSocket c OPEN (Some U)]).
  { unfold s2, ws_message. rewrite (find_has_id_exists _ _ _ Hf1).
    cbn [clients]. unfold s1, ws_connection. cbn [clients].
    rewrite map_app, Hmap. cbn [map]. fold w. now rewrite Hw. }
  split; [reflexivity|]. split; [|split; [|split; [|split; [|split; [|split]]]]].
  - unfold ws_close. rewrite Hf1. cbn [ws_userId w].
    unfold s1, ws_connection. cbn [db clients]. rewrite filter_app, Hfilter.
    cbn [filter]. fold w. rewrite Hw. cbn [negb]. rewrite app_nil_r.
    now destruct s.
  - rewrite Hd2. now apply persisted_online_after_true.
  - rewrite Hd2. eapply Forall_impl; [|apply profiles_of_stamped].
    intros p [_ H]. exact H.
  - rewrite E3. apply persisted_offline_after_false.
  - rewrite E3. cbn [db]. eapply Forall_impl; [|apply profiles_of_stamped].
    intros p [_ H]. exact H.
  - rewrite E3. cbn [clients]. rewrite Hc2, filter_app, Hfilter.
    cbn [filter]. unfold has_id at 1. cbn [ws_id]. rewrite Nat.eqb_refl.
    cbn [negb]. apply app_nil_r.
  - intros V HV. rewrite E3. cbn [db]. rewrite profiles_of_other by exact HV.
    rewrite Hd2. now rewrite profiles_of_other by exact HV.
Qed.

Lemma ws_single_socket_witness :
  let s := mkServer Sample.db0 [] in
  let s3 := ws_close 20 5 (ws_message 10 5 (AuthFrame "alice") (ws_connection 5 s)) in
  persisted_online "alice" (db s3) = false
  /\ clients s3 = []
  /\ map profile_lastSeen (profiles_of "alice" (db s3)) = [Some 20].
Proof.
  assert (H1 : "alice" <> EmptyString) by discriminate.
  assert (H2 : profiles_of "alice" (db (mkServer Sample.db0 [])) <> [])
    by discriminate.
  destruct (ws_single_socket_life_cycle 5%nat "alice" 10 20
              (mkServer Sample.db0 []) eq_refl H1 H2)
    as (_ & _ & _ & _ & Hoff & _ & Hcs & _).
  cbv zeta. split; [exact Hoff|]. split; [exact Hcs | reflexivity].
Defined.

(** ** Photos *)

Lemma removePhoto_where_spec photoId sub p :
  removePhoto_where photoId sub p = true
  <-> photo_id p = photoId /\ sub = Some (photo_profileId p).
Proof.
  unfold removePhoto_where. rewrite andb_true_iff, Z.eqb_eq.
  destruct sub as [pid|].
  - rewrite Z.eqb_eq. split; intros [H1 H2]; split; congruence.
  - split; intros [_ H]; discriminate.
Qed.

(** X16.  [removePhoto (photoId, userId)] deletes a photo only when it
    has that id and belongs to the caller's (first) profile: every other
    photo stays, so a photo of someone else's profile is never deleted,
    and a caller without a profile deletes nothing. *)
Theorem removePhoto_only_own photoId userId d t :
  let t' := removePhoto photoId userId d t in
  (forall p, In p (photo_rows t')
             <-> In p (photo_rows t)
                 /\ ~ (photo_id p = photoId
                       /\ first_profile_id userId d = Some (photo_profileId p)))
  /\ (forall p, In p (photo_rows t) ->
                first_profile_id userId d <> Some (photo_profileId p) ->
                In p (photo_rows t'))
  /\ (getProfile userId d = None -> t' = t)
  /\ photos_id_seq t' = photos_id_seq t.
Proof.
  cbv zeta.
  assert (Hiff : forall p,
             In p (photo_rows (removePhoto photoId userId d t))
             <-> In p (photo_rows t)
                 /\ ~ (photo_id p = photoId
                       /\ first_profile_id userId d = Some (photo_profileId p))).
  { intros p. unfold removePhoto. cbn [photo_rows].
    rewrite filter_In, negb_true_iff, <- not_true_iff_false,
      removePhoto_where_spec. tauto. }
  split; [exact Hiff|]. split; [|split; [|reflexivity]].
  - intros p Hin Hne. apply Hiff. tauto.
  - intros Hnone. unfold removePhoto.
    assert (Hsub : first_profile_id userId d = None).
    { unfold first_profile_id, getProfile in *.
      now destruct (profiles_of userId d). }
    rewrite Hsub, filter_all_true; [now destruct t|].
    intros p _. unfold removePhoto_where. now rewrite andb_false_r.
Qed.

Lemma removePhoto_only_own_witness :
  In (mkPhoto 3 2 "b.jpg" (Some true) (Some 0) 7)
     (photo_rows (removePhoto 3 "alice" Gallery.db Gallery.photos))
  /\ map photo_id (photo_rows (removePhoto 3 "bob" Gallery.db Gallery.photos))
     = [1; 2].
Proof.
  split; [|reflexivity].
  destruct (removePhoto_only_own 3 "alice" Gallery.db Gallery.photos)
    as (_ & Hkeep & _).
  apply Hkeep; [simpl; tauto | discriminate].
Defined.

Lemma with_isPrimary_twice v w p :
  with_isPrimary v (with_isPrimary w p) = with_isPrimary v p.
Proof. reflexivity. Qed.

Lemma setPrimaryPhoto_rows photoId userId up d t :
  getProfile userId d = Some up ->
  setPrimaryPhoto photoId userId d t
  = inr (mkPhotoTable
           (map (fun p => if photo_id p =? photoId then with_isPrimary true p
                          else if photo_profileId p =? profile_id up
                               then with_isPrimary false p else p)
                (photo_rows t))
           (photos_id_seq t)).
Proof.
  intros Hp. unfold setPrimaryPhoto. rewrite Hp. do 2 f_equal.
  rewrite map_map. apply map_ext. intros p.
  destruct (photo_profileId p =? profile_id up); cbn [photo_id with_isPrimary];
    destruct (photo_id p =? photoId); reflexivity.
Qed.

(** X17.  With photo ids a key, [setPrimaryPhoto] on a photo of the
    caller's own profile leaves that profile with exactly one primary
    photo, the chosen one, changes no photo of any other profile, and
    leaves the table with the same photo ids. *)
Theorem setPrimaryPhoto_own_photo photoId userId up ph d t :
  getProfile userId d = Some up ->
  NoDup (map photo_id (photo_rows t)) ->
  In ph (photo_rows t) ->
  photo_id ph = photoId ->
  photo_profileId ph = profile_id up ->
  exists t',
    setPrimaryPhoto photoId userId d t = inr t'
    /\ filter (primary_of (profile_id up)) (photo_rows t')
       = [with_isPrimary true ph]
    /\ (forall p, In p (photo_rows t) ->
                  photo_profileId p <> profile_id up -> In p (photo_rows t'))
    /\ Permutation (map photo_id (photo_rows t')) (map photo_id (photo_rows t))
    /\ photos_id_seq t' = photos_id_seq t.
Proof.
  intros Hp Hnd Hin Hid Hown.
  rewrite (setPrimaryPhoto_rows photoId userId up d t Hp).
  eexists. split; [reflexivity|]. cbn [photo_rows photos_id_seq].
  set (g := fun p => if photo_id p =? photoId then with_isPrimary true p
                     else if photo_profileId p =? profile_id up
                          then with_isPrimary false p else p).
  assert (Hother : forall rows,
             (forall p, In p rows -> photo_id p <> photoId) ->
             filter (primary_of (profile_id up)) (map g rows) = []).
  { induction rows as [|a rows IH]; intros Hne; [reflexivity|].
    cbn [map filter]. rewrite IH by (intros; apply Hne; now right).
    assert (Ha : photo_id a <> photoId) by (apply Hne; now left).
    apply Z.eqb_neq in Ha. unfold g. rewrite Ha. unfold primary_of.
    destruct (photo_profileId a =? profile_id up) eqn:E;
      cbn [with_isPrimary photo_profileId photo_isPrimary]; rewrite E;
      reflexivity. }
  split; [|split; [|split; [|reflexivity]]].
  - clear Hp. induction (photo_rows t) as [|a rows IH]; [contradiction|].
    cbn [map] in Hnd. inversion Hnd as [|? ? Hnotin Hnd']; subst.
    cbn [map filter]. destruct Hin as [->|Hin].
    + rewrite Hother.
      * unfold g. rewrite Z.eqb_refl. unfold primary_of.
        cbn [with_isPrimary photo_profileId photo_isPrimary].
        rewrite Hown, Z.eqb_refl. reflexivity.
      * intros p Hp E. apply Hnotin. rewrite <- E. now apply in_map.
    + assert (Ha : photo_id a <> photo_id ph).
      { intros E. apply Hnotin. rewrite E. now apply in_map. }
      apply Z.eqb_neq in Ha. unfold g at 1. rewrite Ha. unfold primary_of at 1.
      destruct (photo_profileId a =? profile_id up) eqn:E;
        cbn [with_isPrimary photo_profileId photo_isPrimary]; rewrite E;
        cbn [andb]; now apply IH.
  - intros p Hin' Hne. apply in_map_iff. exists p. split; [|exact Hin'].
    unfold g. destruct (photo_id p =? photoId) eqn:E.
    + apply Z.eqb_eq in E.
      assert (p = ph)
        by (apply (in_same_key photo_id (photo_rows t)); auto; congruence).
      congruence.
    + apply Z.eqb_neq in Hne. now rewrite Hne.
  - rewrite map_map.
    assert (E : map (fun p => photo_id (g p)) (photo_rows t)
                = map photo_id (photo_rows t)); [|now rewrite E].
    apply map_ext. intros p. unfold g.
    destruct (photo_id p =? photoId); [reflexivity|].
    now destruct (photo_profileId p =? profile_id up).
Qed.

Lemma setPrimaryPhoto_own_photo_witness :
  exists t',
    setPrimaryPhoto 2 "alice" Gallery.db Gallery.photos = inr t'
    /\ map photo_id (filter (primary_of 1) (photo_rows t')) = [2].
Proof.
  assert (Hnd : NoDup (map photo_id (photo_rows Gallery.photos))).
  { simpl. repeat constructor; simpl; intuition discriminate. }
  destruct (setPrimaryPhoto_own_photo
              2 "alice" Gallery.alice_profile
              (mkPhoto 2 1 "a0.jpg" (Some false) (Some 0) 6)
              Gallery.db Gallery.photos eq_refl Hnd)
    as (t' & E & Hone & _); [simpl; tauto | reflexivity | reflexivity |].
  exists t'. split; [exact E|].
  change (primary_of 1) with (primary_of (profile_id Gallery.alice_profile)).
  rewrite Hone. reflexivity.
Defined.

(** X18.  The second UPDATE of [setPrimaryPhoto] does not look at the
    owner of the photo: when [photoId] names a photo of another profile,
    that photo is made primary all the same (whatever other primary
    photo its profile has stays primary), while the caller's own profile
    is left without any primary photo. *)
Theorem setPrimaryPhoto_foreign_photo photoId userId up ph d t :
  getProfile userId d = Some up ->
  NoDup (map photo_id (photo_rows t)) ->
  In ph (photo_rows t) ->
  photo_id ph = photoId ->
  photo_profileId ph <> profile_id up ->
  exists t',
    setPrimaryPhoto photoId userId d t = inr t'
    /\ In (with_isPrimary true ph) (photo_rows t')
    /\ filter (primary_of (profile_id up)) (photo_rows t') = []
    /\ (forall p, In p (photo_rows t) ->
                  photo_profileId p <> profile_id up ->
                  photo_id p <> photoId -> In p (photo_rows t')).
Proof.
  intros Hp Hnd Hin Hid Hforeign.
  rewrite (setPrimaryPhoto_rows photoId userId up d t Hp).
  eexists. split; [reflexivity|]. cbn [photo_rows].
  set (g := fun p => if photo_id p =? photoId then with_isPrimary true p
                     else if photo_profileId p =? profile_id up
                          then with_isPrimary false p else p).
  split; [|split].
  - apply in_map_iff. exists ph. split; [|exact Hin].
    unfold g. apply Z.eqb_eq in Hid. now rewrite Hid.
  - destruct (filter (primary_of (profile_id up)) (map g (photo_rows t)))
      as [|q qs] eqn:E; [reflexivity|]. exfalso.
    assert (Hq : In q (filter (primary_of (profile_id up))
                              (map g (photo_rows t))))
      by (rewrite E; now left).
    apply filter_In in Hq. destruct Hq as [Hq Hprim].
    apply in_map_iff in Hq. destruct Hq as [p [<- Hp']].
    unfold g, primary_of in Hprim.
    destruct (photo_id p =? photoId) eqn:Eid.
    + apply Z.eqb_eq in Eid.
      assert (p = ph)
        by (apply (in_same_key photo_id (photo_rows t)); auto; congruence).
      subst p. cbn [with_isPrimary photo_profileId] in Hprim.
      apply Z.eqb_neq in Hforeign. now rewrite Hforeign in Hprim.
    + destruct (photo_profileId p =? profile_id up) eqn:Epid;
        cbn [with_isPrimary photo_profileId photo_isPrimary] in Hprim;
        rewrite Epid in Hprim; discriminate.
  - intros p Hin' Hne Hnid. apply in_map_iff. exists p. split; [|exact Hin'].
    unfold g. apply Z.eqb_neq in Hnid, Hne. now rewrite Hnid, Hne.
Qed.

Lemma setPrimaryPhoto_foreign_photo_witness :
  exists t',
    setPrimaryPhoto 2 "bob" Gallery.db Gallery.photos = inr t'
    /\ map photo_id (filter (primary_of 1) (photo_rows t')) = [1; 2]
    /\ filter (primary_of 2) (photo_rows t') = [].
Proof.
  assert (Hnd : NoDup (map photo_id (photo_rows Gallery.photos))).
  { simpl. repeat constructor; simpl; intuition discriminate. }
  destruct (setPrimaryPhoto_foreign_photo
              2 "bob" Gallery.bob_profile
              (mkPhoto 2 1 "a0.jpg" (Some false) (Some 0) 6)
              Gallery.db Gallery.photos eq_refl Hnd)
    as (t' & E & _ & Hnone & _);
    [simpl; tauto | reflexivity | discriminate |].
  exists t'. split; [exact E|]. split; [|exact Hnone].
  vm_compute in E. inversion E; subst. reflexivity.
Defined.

(** ** Profile with photos *)

Lemma leftJoin_hd {A B} (on : A -> B -> bool) (P : A -> bool) l r :
  option_map fst (hd_error (filter (fun x => P (fst x)) (leftJoin on l r)))
  = hd_error (filter P l).
Proof.
  induction l as [|a l IH]; [reflexivity|].
  change (a :: l) with ([a] ++ l) at 1. rewrite leftJoin_app, filter_app. unfold leftJoin at 1. cbn [flat_map filter].
  rewrite app_nil_r.
  destruct (P a) eqn:Pa.
  - destruct (filter (on a) r) as [|b bs]; cbn [map filter fst app];
      rewrite Pa; reflexivity.
  - assert (E : filter (fun x => P (fst x))
                       match filter (on a) r with
                       | [] => [(a, None)]
                       | b :: l0 => map (fun b0 => (a, Some b0)) (b :: l0)
                       end = []).
    { destruct (filter (on a) r) as [|b bs].
      - cbn [filter fst]. now rewrite Pa.
      - destruct (filter (fun x => P (fst x))
                         (map (fun b0 => (a, Some b0)) (b :: bs)))
          as [|x xs] eqn:F; [reflexivity|].
        assert (Hx : In x (filter (fun x => P (fst x))
                                  (map (fun b0 => (a, Some b0)) (b :: bs))))
          by (rewrite F; now left).
        apply filter_In in Hx. destruct Hx as [Hx Px].
        apply in_map_iff in Hx. destruct Hx as [b0 [<- _]].
        cbn in Px. congruence. }
    rewrite E. exact IH.
Qed.

Lemma joined_profiles_In t d p oph ou :
  In ((p, oph), ou) (joined_profiles t d)
  <-> (In p (profiles d)
       /\ match oph with
          | Some ph => In ph (photo_rows t) /\ photo_profileId ph = profile_id p
          | None => filter (join_photo p) (photo_rows t) = []
          end)
      /\ match ou with
         | Some u => In u (users d) /\ user_id u = profile_userId p
         | None => filter (join_user (p, oph)) (users d) = []
         end.
Proof.
  unfold joined_profiles. rewrite leftJoin_In, leftJoin_In.
  unfold join_photo, join_user. cbn [fst].
  destruct oph as [ph|], ou as [u|];
    rewrite ?Z.eqb_eq, ?String.eqb_eq; tauto.
Qed.

Lemma In_present_photos ph rows :
  In ph (present_photos rows)
  <-> exists r, In r rows /\ row_photo r = Some ph.
Proof.
  unfold present_photos. rewrite in_flat_map. split.
  - intros [r [Hr Hin]]. exists r. split; [exact Hr|].
    destruct (row_photo r) as [q|]; [|contradiction].
    destruct Hin as [->|[]]. reflexivity.
  - intros [r [Hr E]]. exists r. split; [exact Hr|]. rewrite E. now left.
Qed.

(** X19.  [getProfileWithPhotos U] answers nothing exactly when U has no
    profile row.  Otherwise the profile it returns is the one
    [getProfile U] returns, its photos are exactly the stored photos of
    U's profile rows, in ascending [order] (a missing order counting as
    0), and its user is the [users] row of U when there is one. *)
Theorem getProfileWithPhotos_spec U t d :
  match getProfileWithPhotos U t d with
  | None => getProfile U d = None
  | Some r =>
      getProfile U d = Some (pwp_profile r)
      /\ StronglySorted (asc order_key) (pwp_photos r)
      /\ (forall ph,
            In ph (pwp_photos r)
            <-> In ph (photo_rows t)
                /\ exists p, In p (profiles_of U d)
                             /\ photo_profileId ph = profile_id p)
      /\ match pwp_user r with
         | Some u => In u (users d) /\ user_id u = U
         | None => user_exists d U = false
         end
  end.
Proof.
  unfold getProfileWithPhotos.
  set (P := fun p : Profile => String.eqb (profile_userId p) U).
  set (result := filter (fun r => String.eqb (profile_userId (row_profile r)) U)
                        (joined_profiles t d)).
  assert (Hhd : option_map row_profile (hd_error result) = getProfile U d).
  { unfold getProfile, profiles_of. fold P.
    rewrite <- (leftJoin_hd join_photo P (profiles d) (photo_rows t)).
    rewrite <- (leftJoin_hd join_user (fun x => P (fst x))
                  (leftJoin join_photo (profiles d) (photo_rows t)) (users d)).
    fold (joined_profiles t d). unfold result, row_profile, P.
    now destruct (hd_error _). }
  destruct result as [|r0 rest] eqn:Eres.
  - cbn in Hhd. now symmetry.
  - cbn [hd_error option_map] in Hhd. cbn [pwp_profile pwp_photos pwp_user].
    split; [now symmetry|]. split; [apply orderBy_asc_sorted|]. split.
    + intros ph. rewrite orderBy_asc_In, In_present_photos. rewrite <- Eres.
      unfold result. split.
      * intros [[[p oph] ou] [Hr E]]. apply filter_In in Hr.
        destruct Hr as [Hr HU]. cbn in E. subst oph.
        apply joined_profiles_In in Hr. destruct Hr as [[Hp [Hph Hid]] _].
        split; [exact Hph|]. exists p. split; [|exact Hid].
        apply filter_In. split; [exact Hp | exact HU].
      * intros [Hph [p [Hp Hid]]]. apply filter_In in Hp.
        destruct Hp as [Hp HU].
        assert (Hinner : In (p, Some ph)
                            (leftJoin join_photo (profiles d) (photo_rows t))).
        { apply leftJoin_In. split; [exact Hp|]. split; [exact Hph|].
          unfold join_photo. now apply Z.eqb_eq. }
        destruct (leftJoin_covers join_user _ _ (users d) Hinner) as [ou Hou].
        exists ((p, Some ph), ou). split; [|reflexivity].
        apply filter_In. split; [exact Hou | exact HU].
    + assert (Hr0 : In r0 result) by (rewrite Eres; now left).
      unfold result in Hr0. apply filter_In in Hr0. destruct Hr0 as [Hr0 HU].
      destruct r0 as [[p oph] ou]. cbn in HU. apply String.eqb_eq in HU.
      apply joined_profiles_In in Hr0. destruct Hr0 as [_ Hou].
      unfold row_user. cbn [snd]. destruct ou as [u|].
      * destruct Hou as [Hu Hid]. split; [exact Hu | congruence].
      * unfold user_exists. apply not_true_is_false. intros Hex.
        apply existsb_exists in Hex. destruct Hex as [u [Hu Hid]].
        assert (Hf : In u (filter (join_user (p, oph)) (users d))).
        { apply filter_In. split; [exact Hu|]. unfold join_user. cbn [fst].
          now rewrite HU. }
        now rewrite Hou in Hf.
Qed.

Lemma getProfileWithPhotos_witness :
  option_map (fun r => map photo_url (pwp_photos r))
             (getProfileWithPhotos "alice" Gallery.photos Gallery.db)
  = Some ["a0.jpg"; "a1.jpg"]
  /\ getProfile "dave" Gallery.db = None.
Proof.
  split; [reflexivity|].
  exact (getProfileWithPhotos_spec "dave" Gallery.photos Gallery.db).
Defined.

(** X20.  [addPhoto] for an existing profile appends the photo with a
    fresh id and the column defaults (not primary, order 0) where the
    insert gives none, and [getProfileWithPhotos] of the profile's user
    then lists it. *)
Theorem addPhoto_then_listed now photo U p t d :
  In p (profiles_of U d) ->
  ip_profileId photo = profile_id p ->
  exists ph r,
    addPhoto now photo d t
    = (Returned ph, mkPhotoTable (photo_rows t ++ [ph]) (photos_id_seq t + 1))
    /\ photo_id ph = photos_id_seq t + 1
    /\ photo_profileId ph = profile_id p
    /\ photo_url ph = ip_url photo
    /\ (ip_isPrimary photo = None -> photo_isPrimary ph = Some false)
    /\ (ip_order photo = None -> photo_order ph = Some 0)
    /\ getProfileWithPhotos U (snd (addPhoto now photo d t)) d = Some r
    /\ In ph (pwp_photos r).
Proof.
  intros Hp Hid.
  assert (Hex : profile_exists d (ip_profileId photo) = true).
  { unfold profile_exists. apply existsb_exists. exists p.
    apply filter_In in Hp. split; [tauto|]. rewrite Hid. apply Z.eqb_refl. }
  unfold addPhoto. rewrite Hex. cbn [snd].
  set (ph := mkPhoto (photos_id_seq t + 1) (ip_profileId photo) (ip_url photo)
                     (match ip_isPrimary photo with
                      | Some v => v | None => Some false end)
                     (match ip_order photo with
                      | Some v => v | None => Some 0 end) now).
  set (t' := mkPhotoTable (photo_rows t ++ [ph]) (photos_id_seq t + 1)).
  pose proof (getProfileWithPhotos_spec U t' d) as Hspec.
  destruct (getProfileWithPhotos U t' d) as [r|].
  - exists ph, r. split; [reflexivity|].
    split; [reflexivity|]. split; [exact Hid|]. split; [reflexivity|].
    split; [intros E; unfold ph; cbn; now rewrite E|].
    split; [intros E; unfold ph; cbn; now rewrite E|].
    split; [reflexivity|].
    destruct Hspec as (_ & _ & Hphotos & _). apply Hphotos. split.
    + unfold t'. cbn [photo_rows]. apply in_or_app. right. now left.
    + exists p. split; [exact Hp | exact Hid].
  - exfalso. unfold getProfile in Hspec.
    destruct (profiles_of U d); [contradiction | discriminate].
Qed.

Lemma addPhoto_then_listed_witness :
  exists ph r,
    addPhoto 9 (mkInsertPhoto 2 "b2.jpg" None None) Gallery.db Gallery.photos
    = (Returned ph,
       mkPhotoTable (photo_rows Gallery.photos ++ [ph]) 4)
    /\ getProfileWithPhotos
         "bob"
         (snd (addPhoto 9 (mkInsertPhoto 2 "b2.jpg" None None) Gallery.db
                        Gallery.photos))
         Gallery.db = Some r
    /\ In ph (pwp_photos r).
Proof.
  destruct (addPhoto_then_listed 9 (mkInsertPhoto 2 "b2.jpg" None None) "bob"
              Gallery.bob_profile Gallery.photos Gallery.db)
    as (ph & r & E & _ & _ & _ & _ & _ & Hget & Hin);
    [simpl; tauto | reflexivity |].
  exists ph, r. split; [exact E|]. split; [exact Hget | exact Hin].
Defined.

(** ** Discovery *)

Section OrderByLeFacts.
Context {A : Type} (le : A -> A -> bool).

Lemma insert_le_perm x l : Permutation (insert_le le x l) (x :: l).
Proof.
  induction l as [|y l IH]; simpl; [reflexivity|].
  destruct (le x y); [reflexivity|].
  rewrite IH. apply perm_swap.
Qed.

Lemma orderBy_le_perm l : Permutation (orderBy_le le l) l.
Proof.
  induction l as [|x l IH]; simpl; [constructor|].
  rewrite insert_le_perm. now constructor.
Qed.

Lemma orderBy_le_In x l : In x (orderBy_le le l) <-> In x l.
Proof.
  split; apply Permutation_in;
    [apply orderBy_le_perm | symmetry; apply orderBy_le_perm].
Qed.

Hypothesis le_total : forall x y, le x y = false -> le y x = true.
Hypothesis le_trans : forall x y z, le x y = true -> le y z = true -> le x z = true.

Lemma insert_le_sorted x l :
  StronglySorted (fun a b => le a b = true) l ->
  StronglySorted (fun a b => le a b = true) (insert_le le x l).
Proof.
  induction l as [|y l IH]; simpl; intros Hs.
  - repeat constructor.
  - inversion Hs as [|? ? Hs' Hall]; subst.
    destruct (le x y) eqn:E.
    + constructor; [exact Hs|]. constructor; [exact E|].
      eapply Forall_impl; [|exact Hall]. intros z Hz. now apply le_trans with y.
    + constructor; [now apply IH|].
      eapply Permutation_Forall; [symmetry; apply insert_le_perm|].
      constructor; [now apply le_total | exact Hall].
Qed.

Lemma orderBy_le_sorted l :
  StronglySorted (fun a b => le a b = true) (orderBy_le le l).
Proof.
  induction l as [|x l IH]; simpl; [constructor|].
  now apply insert_le_sorted.
Qed.
End OrderByLeFacts.

Lemma online_rank_range p : online_rank p = 0 \/ online_rank p = 1.
Proof. unfold online_rank. destruct (profile_isOnline p) as [[]|]; auto. Qed.

Lemma nearby_le_spec r1 r2 :
  nearby_le r1 r2 = true <-> nearby_order (row_profile r1) (row_profile r2).
Proof.
  unfold nearby_le, nearby_order.
  rewrite orb_true_iff, andb_true_iff, Z.ltb_lt, Z.eqb_eq. tauto.
Qed.

Lemma lastSeen_desc_total p q :
  lastSeen_desc p q = false -> lastSeen_desc q p = true.
Proof.
  unfold lastSeen_desc.
  destruct (profile_lastSeen p) as [a|], (profile_lastSeen q) as [b|];
    try reflexivity; try discriminate.
  intros H. apply Z.leb_gt in H. apply Z.leb_le. lia.
Qed.

Lemma lastSeen_desc_trans p q r :
  lastSeen_desc p q = true -> lastSeen_desc q r = true ->
  lastSeen_desc p r = true.
Proof.
  unfold lastSeen_desc.
  destruct (profile_lastSeen p) as [a|], (profile_lastSeen q) as [b|],
           (profile_lastSeen r) as [c|];
    try reflexivity; try discriminate.
  intros H1 H2. apply Z.leb_le in H1, H2. apply Z.leb_le. lia.
Qed.

Lemma nearby_le_total r1 r2 : nearby_le r1 r2 = false -> nearby_le r2 r1 = true.
Proof.
  unfold nearby_le. intros H. apply orb_false_iff in H. destruct H as [H1 H2].
  apply Z.ltb_ge in H1. apply orb_true_iff.
  destruct (Z.eq_dec (online_rank (row_profile r1)) (online_rank (row_profile r2)))
    as [E|E].
  - right. rewrite E, Z.eqb_refl in *. cbn [andb] in *.
    now apply lastSeen_desc_total.
  - left. apply Z.ltb_lt. lia.
Qed.

Lemma nearby_le_trans r1 r2 r3 :
  nearby_le r1 r2 = true -> nearby_le r2 r3 = true -> nearby_le r1 r3 = true.
Proof.
  rewrite !nearby_le_spec. unfold nearby_order.
  intros [H1|[H1 L1]] [H2|[H2 L2]]; try (left; lia).
  right. split; [lia|]. now apply lastSeen_desc_trans with (row_profile r2).
Qed.

Lemma StronglySorted_impl {A} (R R' : A -> A -> Prop) l :
  (forall x y, R x y -> R' x y) -> StronglySorted R l -> StronglySorted R' l.
Proof.
  intros H. induction 1 as [|x l Hs IH Hall]; constructor; [exact IH|].
  eapply Forall_impl; [|exact Hall]. intros y. apply H.
Qed.

Lemma nearby_rows_sorted U a b o t d :
  StronglySorted (fun r1 r2 => nearby_order (row_profile r1) (row_profile r2))
                 (nearby_rows U a b o t d).
Proof.
  unfold nearby_rows.
  apply StronglySorted_impl with (R := fun r1 r2 => nearby_le r1 r2 = true).
  - intros r1 r2. apply nearby_le_spec.
  - apply orderBy_le_sorted; [apply nearby_le_total | apply nearby_le_trans].
Qed.

Lemma pmap_has_spec k m : pmap_has k m = true <-> In k (map fst m).
Proof.
  unfold pmap_has. rewrite existsb_exists, in_map_iff. split.
  - intros [kv [Hin E]]. apply Z.eqb_eq in E. now exists kv.
  - intros [kv [E Hin]]. exists kv. split; [exact Hin|]. now apply Z.eqb_eq.
Qed.

Lemma photos_for_cons k r rows :
  photos_for k (r :: rows)
  = (if row_profile_id r =? k
     then match row_photo r with Some ph => [ph] | None => [] end
     else []) ++ photos_for k rows.
Proof.
  unfold photos_for. cbn [filter].
  destruct (row_profile_id r =? k); [|reflexivity].
  unfold present_photos. reflexivity.
Qed.

(** One step of the loop on entries that already exist: pushing the
    photo of the row and then the photos of the remaining rows is
    pushing the photos of all the rows. *)
Lemma pushed_step r rest m :
  map (pushed rest)
      match row_photo r with
      | Some photo => pmap_push (row_profile_id r) photo m
      | None => m
      end
  = map (pushed (r :: rest)) m.
Proof.
  destruct (row_photo r) as [ph|] eqn:Eph.
  - unfold pmap_push. rewrite map_map. apply map_ext. intros [k e].
    unfold pushed. cbn [fst snd]. rewrite photos_for_cons, Eph.
    rewrite (Z.eqb_sym (row_profile_id r) k).
    destruct (k =? row_profile_id r); cbn [fst snd pwp_profile pwp_photos pwp_user];
      [now rewrite <- app_assoc | reflexivity].
  - apply map_ext. intros [k e]. unfold pushed. cbn [fst snd].
    rewrite photos_for_cons, Eph. now destruct (row_profile_id r =? k).
Qed.

(** The grouping loop in closed form: the entries there were, with the
    photos of their rows pushed, followed by one entry per profile id
    not yet in the map, started by the first row of that id. *)
Lemma group_profiles_spec rows :
  forall acc, exists firsts,
    group_profiles rows acc = map (pushed rows) acc ++ map (started rows) firsts
    /\ Forall (fun r => In r rows /\ ~ In (row_profile_id r) (map fst acc)) firsts
    /\ NoDup (map row_profile_id firsts)
    /\ (forall r, In r rows ->
                  In (row_profile_id r) (map fst acc ++ map row_profile_id firsts))
    /\ (forall R : JoinedProfile -> JoinedProfile -> Prop,
           StronglySorted R rows -> StronglySorted R firsts).
Proof.
  induction rows as [|r rest IH]; intros acc.
  - exists []. cbn [group_profiles map]. rewrite app_nil_r.
    split; [|split; [constructor | split; [constructor | split]]].
    + symmetry. rewrite <- (map_id acc) at 2. apply map_ext. intros [k e].
      unfold pushed, photos_for. cbn. rewrite app_nil_r. now destruct e.
    + intros r [].
    + intros R _. constructor.
  - cbn [group_profiles]. fold (row_profile_id r).
    destruct (pmap_has (row_profile_id r) acc) eqn:Hhas.
    + apply pmap_has_spec in Hhas.
      set (m2 := match row_photo r with
                 | Some photo => pmap_push (row_profile_id r) photo acc
                 | None => acc
                 end).
      assert (Hkeys : map fst m2 = map fst acc).
      { unfold m2. destruct (row_photo r); [|reflexivity].
        unfold pmap_push. rewrite map_map. apply map_ext. intros [k e].
        cbn [fst]. now destruct (k =? row_profile_id r). }
      destruct (IH m2) as (firsts & Heq & Hfirsts & Hnd & Hcover & Hsorted).
      rewrite Hkeys in *. rewrite Forall_forall in Hfirsts.
      exists firsts. split; [|split; [|split; [exact Hnd | split]]].
      * rewrite Heq. unfold m2. rewrite pushed_step. f_equal.
        apply map_ext_in. intros x Hx. destruct (Hfirsts x Hx) as [_ Hfresh].
        unfold started. rewrite photos_for_cons.
        assert (E : (row_profile_id r =? row_profile_id x) = false).
        { apply Z.eqb_neq. intros E. apply Hfresh. now rewrite <- E. }
        now rewrite E.
      * apply Forall_forall. intros x Hx. destruct (Hfirsts x Hx) as [Hin Hfresh].
        split; [now right | exact Hfresh].
      * intros x [<-|Hx]; [apply in_or_app; now left | now apply Hcover].
      * intros R Hs. inversion Hs; subst. now apply Hsorted.
    + assert (Hfresh0 : ~ In (row_profile_id r) (map fst acc)).
      { intros Hin. apply pmap_has_spec in Hin. congruence. }
      set (new := (row_profile_id r,
                   mkProfileWithPhotos (row_profile r) [] (row_user r))).
      set (m2 := match row_photo r with
                 | Some photo => pmap_push (row_profile_id r) photo (acc ++ [new])
                 | None => acc ++ [new]
                 end).
      assert (Hkeys : map fst m2 = map fst acc ++ [row_profile_id r]).
      { unfold m2. destruct (row_photo r).
        - unfold pmap_push. rewrite map_map.
          transitivity (map fst (acc ++ [new])); [|now rewrite map_app].
          apply map_ext. intros [k e].
          cbn [fst]. now destruct (k =? row_profile_id r).
        - now rewrite map_app. }
      destruct (IH m2) as (firsts & Heq & Hfirsts & Hnd & Hcover & Hsorted).
      rewrite Hkeys in *. rewrite Forall_forall in Hfirsts.
      exists (r :: firsts). split; [|split; [|split; [|split]]].
      * rewrite Heq. unfold m2. rewrite pushed_step, map_app, <- app_assoc.
        f_equal. cbn [map app]. f_equal.
        apply map_ext_in. intros x Hx. destruct (Hfirsts x Hx) as [_ Hfresh].
        unfold started. rewrite photos_for_cons.
        assert (E : (row_profile_id r =? row_profile_id x) = false).
        { apply Z.eqb_neq. intros E. apply Hfresh. apply in_or_app. right.
          left. exact E. }
        now rewrite E.
      * constructor; [split; [now left | exact Hfresh0]|].
        apply Forall_forall. intros x Hx. destruct (Hfirsts x Hx) as [Hin Hfresh].
        split; [now right|]. intros H. apply Hfresh. apply in_or_app. now left.
      * cbn [map]. constructor; [|exact Hnd].
        intros Hin. apply in_map_iff in Hin. destruct Hin as [x [E Hx]].
        destruct (Hfirsts x Hx) as [_ Hfresh]. apply Hfresh.
        apply in_or_app. right. left. now symmetry.
      * intros x [<-|Hx].
        { apply in_or_app. right. now left. }
        specialize (Hcover x Hx). rewrite <- app_assoc in Hcover. exact Hcover.
      * intros R Hs. inversion Hs as [|? ? Hs' Hall]; subst.
        constructor; [now apply Hsorted|].
        rewrite Forall_forall in *. intros x Hx. apply Hall.
        now destruct (Hfirsts x Hx).
Qed.


Lemma nearby_where_spec U a b o p :
  nearby_where U a b o p = true
  <-> profile_userId p <> U
      /\ profile_isVisible p = Some true
      /\ a <= profile_age p <= b
      /\ (o = true -> profile_isOnline p = Some true).
Proof.
  unfold nearby_where.
  rewrite !andb_true_iff, negb_true_iff, String.eqb_neq, !Z.leb_le.
  destruct (profile_isVisible p) as [[]|], o, (profile_isOnline p) as [[]|];
    intuition (try discriminate; try congruence; auto).
Qed.

Lemma nearby_rows_In U a b o t d r :
  In r (nearby_rows U a b o t d)
  <-> In r (joined_profiles t d)
      /\ nearby_where U a b o (row_profile r) = true.
Proof. unfold nearby_rows. rewrite orderBy_le_In. apply filter_In. Qed.

(** [getNearbyProfiles] in closed form: one entry per profile id among
    the selected rows, in the order of the rows, each with the photos of
    its rows sorted on [order]. *)
Lemma getNearbyProfiles_closed U ageMin ageMax onlineOnly t d :
  let a := match ageMin with Some a => a | None => 18 end in
  let b := match ageMax with Some a => a | None => 65 end in
  let o := match onlineOnly with Some b => b | None => false end in
  let rows := nearby_rows U a b o t d in
  exists firsts,
    getNearbyProfiles U ageMin ageMax onlineOnly t d
    = map (fun r => mkProfileWithPhotos
                      (row_profile r)
                      (orderBy_asc order_key (photos_for (row_profile_id r) rows))
                      (row_user r))
          firsts
    /\ (forall r, In r firsts -> In r rows)
    /\ NoDup (map row_profile_id firsts)
    /\ (forall r, In r rows -> In (row_profile_id r) (map row_profile_id firsts))
    /\ StronglySorted
         (fun r1 r2 => nearby_order (row_profile r1) (row_profile r2)) firsts.
Proof.
  cbv zeta. unfold getNearbyProfiles.
  set (rows := nearby_rows U _ _ _ t d).
  destruct (group_profiles_spec rows []) as (firsts & Heq & Hfirsts & Hnd & Hcover & Hs).
  exists firsts. rewrite Heq. cbn [map app]. rewrite !map_map.
  split; [reflexivity|]. rewrite Forall_forall in Hfirsts.
  split; [intros r Hr; now destruct (Hfirsts r Hr)|].
  split; [exact Hnd|]. split; [exact Hcover|].
  apply Hs. apply nearby_rows_sorted.
Qed.

(** X21.  [getNearbyProfiles U] returns one entry per profile id, and
    its profiles are exactly the stored profiles that are not U's own,
    are visible, have an age within the bounds (18 to 65 when none is
    given) and, when [onlineOnly] is set, are online: every entry is such
    a profile, and every such profile's id is in the result. *)
Theorem getNearbyProfiles_selects U ageMin ageMax onlineOnly t d :
  let a := match ageMin with Some a => a | None => 18 end in
  let b := match ageMax with Some a => a | None => 65 end in
  let o := match onlineOnly with Some b => b | None => false end in
  let res := getNearbyProfiles U ageMin ageMax onlineOnly t d in
  NoDup (map (fun e => profile_id (pwp_profile e)) res)
  /\ Forall (fun e =>
               In (pwp_profile e) (profiles d)
               /\ profile_userId (pwp_profile e) <> U
               /\ profile_isVisible (pwp_profile e) = Some true
               /\ a <= profile_age (pwp_profile e) <= b
               /\ (o = true -> profile_isOnline (pwp_profile e) = Some true))
            res
  /\ (forall p,
        In p (profiles d) ->
        profile_userId p <> U ->
        profile_isVisible p = Some true ->
        a <= profile_age p <= b ->
        (o = true -> profile_isOnline p = Some true) ->
        In (profile_id p) (map (fun e => profile_id (pwp_profile e)) res)).
Proof.
  cbv zeta.
  destruct (getNearbyProfiles_closed U ageMin ageMax onlineOnly t d)
    as (firsts & -> & Hin & Hnd & Hcover & _).
  rewrite map_map. cbn [pwp_profile]. fold row_profile_id.
  split; [exact Hnd|]. split.
  - apply Forall_map, Forall_forall. intros r Hr. cbn [pwp_profile].
    apply Hin, nearby_rows_In in Hr. destruct Hr as [Hj Hw].
    destruct r as [[p oph] ou]. apply joined_profiles_In in Hj.
    apply nearby_where_spec in Hw. cbn [row_profile fst] in *. tauto.
  - intros p Hp H1 H2 H3 H4.
    destruct (leftJoin_covers join_photo p (profiles d) (photo_rows t) Hp)
      as [oph Hoph].
    destruct (leftJoin_covers join_user (p, oph) _ (users d) Hoph) as [ou Hou].
    apply (Hcover ((p, oph), ou)). apply nearby_rows_In. split; [exact Hou|].
    apply nearby_where_spec. cbn [row_profile fst]. tauto.
Qed.

Lemma getNearbyProfiles_selects_witness :
  map (fun e => profile_userId (pwp_profile e))
      (getNearbyProfiles "alice" None None None Gallery.photos Gallery.db)
  = ["bob"]
  /\ NoDup (map (fun e => profile_id (pwp_profile e))
                (getNearbyProfiles "alice" None None None Gallery.photos
                                   Gallery.db)).
Proof.
  split; [reflexivity|].
  exact (proj1 (getNearbyProfiles_selects "alice" None None None
                                          Gallery.photos Gallery.db)).
Defined.

(** X22.  The discovery list is ordered as the query orders its rows:
    online profiles before all the others, and within each of the two
    groups by [lastSeen] descending, a missing [lastSeen] first. *)
Theorem getNearbyProfiles_online_first U ageMin ageMax onlineOnly t d :
  StronglySorted (fun e1 e2 => nearby_order (pwp_profile e1) (pwp_profile e2))
                 (getNearbyProfiles U ageMin ageMax onlineOnly t d).
Proof.
  destruct (getNearbyProfiles_closed U ageMin ageMax onlineOnly t d)
    as (firsts & -> & _ & _ & _ & Hs).
  apply StronglySorted_map. exact Hs.
Qed.

(** X23.  Each entry of the discovery list carries exactly the stored
    photos of its profile, in ascending [order] (a missing order counting
    as 0), and as its user the [users] row of the profile's user when
    there is one. *)
Theorem getNearbyProfiles_photos U ageMin ageMax onlineOnly t d :
  Forall (fun e =>
            StronglySorted (asc order_key) (pwp_photos e)
            /\ (forall ph,
                  In ph (pwp_photos e)
                  <-> In ph (photo_rows t)
                      /\ photo_profileId ph = profile_id (pwp_profile e))
            /\ match pwp_user e with
               | Some u => In u (users d)
                           /\ user_id u = profile_userId (pwp_profile e)
               | None => user_exists d (profile_userId (pwp_profile e)) = false
               end)
         (getNearbyProfiles U ageMin ageMax onlineOnly t d).
Proof.
  destruct (getNearbyProfiles_closed U ageMin ageMax onlineOnly t d)
    as (firsts & -> & Hin & _ & _ & _).
  set (rows := nearby_rows U _ _ _ t d) in *.
  apply Forall_map, Forall_forall. intros r Hr.
  cbn [pwp_profile pwp_photos pwp_user].
  pose proof (Hin r Hr) as Hrow. apply nearby_rows_In in Hrow.
  destruct Hrow as [Hj Hw].
  split; [apply orderBy_asc_sorted|]. split.
  - intros ph. rewrite orderBy_asc_In. unfold photos_for.
    rewrite In_present_photos. split.
    + intros [[[p oph] ou] [Hx E]]. apply filter_In in Hx.
      destruct Hx as [Hx Hk]. apply Z.eqb_eq in Hk. cbn in E. subst oph.
      apply nearby_rows_In in Hx. destruct Hx as [Hx _].
      apply joined_profiles_In in Hx. destruct Hx as [[_ [Hph Hid]] _].
      split; [exact Hph|]. unfold row_profile_id in Hk. cbn in Hk.
      fold (row_profile_id r). unfold row_profile_id. congruence.
    + intros [Hph Hid]. destruct r as [[p oph] ou].
      cbn [row_profile fst] in *.
      pose proof Hj as Hj'. apply joined_profiles_In in Hj'.
      destruct Hj' as [[Hp _] _].
      assert (Hinner : In (p, Some ph)
                          (leftJoin join_photo (profiles d) (photo_rows t))).
      { apply leftJoin_In. split; [exact Hp|]. split; [exact Hph|].
        unfold join_photo. now apply Z.eqb_eq. }
      destruct (leftJoin_covers join_user _ _ (users d) Hinner) as [ou' Hou'].
      exists ((p, Some ph), ou'). split; [|reflexivity].
      apply filter_In. split; [|apply Z.eqb_refl].
      apply nearby_rows_In. split; [exact Hou' | exact Hw].
  - destruct r as [[p oph] ou]. apply joined_profiles_In in Hj.
    destruct Hj as [_ Hou]. unfold row_user, row_profile. cbn [fst snd].
    destruct ou as [u|]; [exact Hou|].
    unfold user_exists. apply not_true_is_false. intros Hex.
    apply existsb_exists in Hex. destruct Hex as [u [Hu Hid]].
    assert (Hf : In u (filter (join_user (p, oph)) (users d))).
    { apply filter_In. split; [exact Hu|]. exact Hid. }
    now rewrite Hou in Hf.
Qed.

(** ** The like route, whatever the body *)


(** ** Read flags in a conversation *)

Lemma filter_map_comm {A B} (g : A -> B) (P : B -> bool) l :
  filter P (map g l) = map g (filter (fun a => P (g a)) l).
Proof.
  induction l as [|a l IH]; [reflexivity|].
  cbn [map filter]. destruct (P (g a)); cbn [map]; now rewrite IH.
Qed.

Lemma orderBy_asc_ext {A} (k1 k2 : A -> Z) l :
  (forall a, k1 a = k2 a) -> orderBy_asc k1 l = orderBy_asc k2 l.
Proof.
  intros H. induction l as [|x l IH]; [reflexivity|].
  cbn [orderBy_asc]. rewrite IH. generalize (orderBy_asc k2 l). intros s.
  induction s as [|y s IHs]; [reflexivity|].
  cbn [insert_asc]. rewrite !H. now rewrite IHs.
Qed.

Lemma mark_row_fields messageId userId m :
  senderId (mark_row messageId userId m) = senderId m
  /\ receiverId (mark_row messageId userId m) = receiverId m
  /\ message_createdAt (mark_row messageId userId m) = message_createdAt m.
Proof.
  unfold mark_row.
  now destruct ((message_id m =? messageId) && String.eqb (receiverId m) userId).
Qed.

Lemma leftJoin_mark_rows messageId userId ms us :
  leftJoin join_sender (map (mark_row messageId userId) ms) us
  = map (fun row => (mark_row messageId userId (fst row), snd row))
        (leftJoin join_sender ms us).
Proof.
  induction ms as [|m ms IH]; [reflexivity|].
  cbn [map].
  change (mark_row messageId userId m :: map (mark_row messageId userId) ms)
    with ([mark_row messageId userId m] ++ map (mark_row messageId userId) ms).
  change (m :: ms) with ([m] ++ ms).
  rewrite !leftJoin_app, IH, map_app. f_equal.
  unfold leftJoin. cbn [flat_map]. rewrite !app_nil_r.
  assert (E : filter (join_sender (mark_row messageId userId m)) us
              = filter (join_sender m) us).
  { apply filter_ext. intros u. unfold join_sender.
    now destruct (mark_row_fields messageId userId m) as [-> _]. }
  rewrite E. destruct (filter (join_sender m) us) as [|b bs]; [reflexivity|].
  now rewrite map_map.
Qed.

(** With rows rewritten where they stand and ties kept in scan order,
    the conversation after the update is the one before with the flag
    raised. *)
Lemma getConversation_mark_rows messageId userId A B d :
  getConversation A B (snd (markMessageAsRead messageId userId d))
  = map (fun e => mkMessageWithUsers
                    (mark_row messageId userId (mwu_message e))
                    (sender e) (receiver e))
        (getConversation A B d).
Proof.
  unfold getConversation.
  cbn [snd markMessageAsRead messages users set_messages].
  set (g := fun row : Message * option User =>
              (mark_row messageId userId (fst row), snd row)).
  rewrite leftJoin_mark_rows. fold g.
  rewrite filter_map_comm.
  assert (Ef : filter (fun a => conversation_where A B (fst (g a)))
                      (leftJoin join_sender (messages d) (users d))
               = filter (fun row => conversation_where A B (fst row))
                        (leftJoin join_sender (messages d) (users d))).
  { apply filter_ext. intros [m ou]. unfold g, conversation_where. cbn [fst].
    now destruct (mark_row_fields messageId userId m) as (-> & -> & _). }
  rewrite Ef.
  rewrite <- (map_orderBy_asc g row_createdAt).
  rewrite (orderBy_asc_ext (fun a => row_createdAt (g a)) row_createdAt).
  - rewrite !map_map. apply map_ext. now intros [m ou].
  - intros [m ou]. unfold g, row_createdAt. cbn [fst].
    now destruct (mark_row_fields messageId userId m) as (_ & _ & ->).
Qed.

(** X25.  Marking a message as read changes a conversation in that one
    flag only: [getConversation] after [markMessageAsRead] returns the
    entries it returned before, with their joined users, and with the
    read flag raised on the message marked; they are again in ascending
    [createdAt] order, which is the very order they had before whenever
    their [createdAt] values are pairwise distinct. *)
Theorem getConversation_after_markMessageAsRead messageId userId A B d :
  let before := getConversation A B d in
  let after := getConversation A B (snd (markMessageAsRead messageId userId d)) in
  let raised :=
    map (fun e => mkMessageWithUsers
                    (mark_row messageId userId (mwu_message e))
                    (sender e) (receiver e))
        before in
  Permutation after raised
  /\ StronglySorted
       (fun x y => message_createdAt (mwu_message x)
                   <= message_createdAt (mwu_message y))
       after
  /\ (StronglySorted
        (fun x y => message_createdAt (mwu_message x)
                    < message_createdAt (mwu_message y))
        before ->
      after = raised).
Proof.
  cbv zeta. split; [|split].
  - now rewrite getConversation_mark_rows.
  - unfold getConversation. apply StronglySorted_map.
    apply (orderBy_asc_sorted row_createdAt).
  - intros Hdistinct.
    apply (sorted_perm_unique
             (fun e => message_createdAt (mwu_message e))).
    + now rewrite getConversation_mark_rows.
    + unfold getConversation. apply StronglySorted_map.
      apply (orderBy_asc_sorted row_createdAt).
    + apply StronglySorted_map.
      eapply StronglySorted_impl; [|exact Hdistinct].
      intros x y H. cbn [mwu_message].
      destruct (mark_row_fields messageId userId (mwu_message x)) as (_ & _ & ->).
      destruct (mark_row_fields messageId userId (mwu_message y)) as (_ & _ & ->).
      exact H.
Qed.

Lemma getConversation_after_mark_witness :
  map (fun e => isRead (mwu_message e))
      (getConversation "alice" "bob"
         (snd (markMessageAsRead 2 "alice" Sample.db_chat)))
  = [Some false; Some true; Some false].
Proof.
  assert (Hdistinct :
            StronglySorted
              (fun x y => message_createdAt (mwu_message x)
                          < message_createdAt (mwu_message y))
              (getConversation "alice" "bob" Sample.db_chat)).
  { repeat constructor; simpl; lia. }
  rewrite (proj2 (proj2 (getConversation_after_markMessageAsRead
                           2 "alice" "alice" "bob" Sample.db_chat))
                 Hdistinct).
  reflexivity.
Defined.
